(** * tapsync: overlay renderer and layout editor

    A shallow embedding of [overlay.py] (class [OverlayWindow]) and
    [editor.py] (class [EditorCanvas]), with the properties of their state
    transitions and of the shared unit-to-pixel geometry.

    Conventions of the embedding.
    - Python numbers (the [x], [y], [w], [h] of a key, pointer coordinates)
      are exact rationals [Q]; results are compared with [==].  Theme pixel
      sizes are integers [Z], as the settings widgets produce them.
    - A key is a Python dict with a fixed schema; it becomes a record.  The
      editor shares key dicts between its list, its selection and its drag
      target, so the editor keeps them in a store indexed by object identity.
    - Calls into the Qt widget ([update()], [setFixedSize], emitted signals)
      are recorded, in order, in a trace that is part of the widget state.
    - Logging is not modelled. *)

From Stdlib Require Import ZArith QArith Qround Qminmax Ascii String Lia.
From stdpp Require Import gmap strings list.

Open Scope string_scope.

(** ** Python values *)

Module Py.

(** [int(x)] on a float: truncation towards zero. *)
Definition int (q : Q) : Z :=
  if Qle_bool 0 q then Qfloor q else Qceiling q.

(** [round(x)] on a float: the nearest integer, ties to the even one. *)
Definition round (q : Q) : Z :=
  let f := Qfloor q in
  match (q - inject_Z f ?= 1 # 2)%Q with
  | Lt => f
  | Gt => (f + 1)%Z
  | Eq => if Z.even f then f else (f + 1)%Z
  end.

(** [max(a, b)]: the first argument unless the second is strictly larger. *)
Definition max (a b : Q) : Q := Qmax a b.

(** Truthiness of a [str | None] value: [None] and the empty string are
    false. *)
Definition truthy (o : option string) : bool :=
  match o with
  | Some s => negb (String.eqb s "")
  | None => false
  end.

(** Exceptions the modelled code can raise.  [DanglingRef] is not a Python
    exception: it marks a lookup of an object identity that the store does
    not hold, which no reachable state does. *)
Inductive Exc := ZeroDivisionError | DanglingRef.

Inductive Result (A : Type) :=
  | Ok (a : A)
  | Raise (e : Exc).
Arguments Ok {A} a.
Arguments Raise {A} e.

#[global] Instance result_ret : MRet Result := fun A a => Ok a.
#[global] Instance result_bind : MBind Result := fun A B f m =>
  match m with
  | Ok a => f a
  | Raise e => Raise e
  end.
#[global] Instance result_fmap : FMap Result := fun A B f m =>
  match m with
  | Ok a => Ok (f a)
  | Raise e => Raise e
  end.

(** [x / d] with an integer divisor. *)
Definition div (x : Q) (d : Z) : Result Q :=
  if Z.eqb d 0 then Raise ZeroDivisionError else Ok (x / inject_Z d)%Q.

End Py.

(** ** Data model *)

(** A key dict: [{"id", "label", "x", "y", "w", "h", "color", "text_color"}]. *)
Record Key := mkKey {
  key_id : string;
  key_label : string;
  key_x : Q;
  key_y : Q;
  key_w : Q;
  key_h : Q;
  key_color : option string;
  key_text_color : option string
}.

(** The theme dict, split by the type of its entries. *)
Record Theme := mkTheme {
  theme_int : gmap string Z;
  theme_str : gmap string string;
  theme_bool : gmap string bool;
  theme_float : gmap string Q
}.

(** [t.get(name, default)] at each entry type. *)
Definition get_int (t : Theme) (name : string) (dflt : Z) : Z :=
  default dflt (theme_int t !! name).

Definition get_str (t : Theme) (name : string) (dflt : string) : string :=
  default dflt (theme_str t !! name).

Definition get_bool (t : Theme) (name : string) (dflt : bool) : bool :=
  default dflt (theme_bool t !! name).

Definition get_float (t : Theme) (name : string) (dflt : Q) : Q :=
  default dflt (theme_float t !! name).

(** Truthiness of the theme dict: false exactly when it has no entry. *)
Definition theme_truthy (t : Theme) : bool :=
  negb (bool_decide (theme_int t = ∅) && bool_decide (theme_str t = ∅)
        && bool_decide (theme_bool t = ∅)
        && bool_decide (dom (theme_float t) = ∅)).

(** [DEFAULT_THEME] of [config.py]. *)
Definition DEFAULT_THEME : Theme := {|
  theme_int := list_to_map
    [("font_size", 10%Z); ("key_radius", 6%Z); ("key_unit_px", 44%Z);
     ("key_gap_px", 4%Z); ("key_height_px", 44%Z); ("grid_size", 44%Z)];
  theme_str := list_to_map
    [("bg", "#111111"); ("key_idle", "#2a2a3a"); ("key_pressed", "#7b68ee");
     ("mouse_idle", "#1e3a5f"); ("mouse_pressed", "#1e90ff");
     ("key_text", "#ffffff"); ("key_outline", "#444466");
     ("font_family", "Consolas")];
  theme_bool := list_to_map
    [("font_bold", true); ("grid_visible", true); ("snap_to_grid", true)];
  theme_float := list_to_map [("overlay_alpha", 93 # 100)]
|}.

(** ** Geometry shared by the renderer and the editor *)

(** A [QRectF(x, y, w, h)]. *)
Record QRectF := mkRect { rx : Q; ry : Q; rw : Q; rh : Q }.

(** A [QColor(name)]. *)
Inductive QColor := mkQColor (name : string).

(** ** The overlay renderer ([overlay.py]) *)

Module Overlay.

Definition UNIT : Z := 44.

(** [_hex(color, fallback)].  Building a [QColor] from a string does not
    raise, so the [except] branch is never taken. *)
Definition _hex (color : option string) (fallback : string) : QColor :=
  match color with
  | Some c => if Py.truthy color then mkQColor c else mkQColor fallback
  | None => mkQColor fallback
  end.

(** Calls made on the underlying widget. *)
Inductive Call :=
  | setWindowFlags
  | setAttribute (name : string)
  | setWindowTitle (title : string)
  | setWindowOpacity (alpha : Q)
  | setFixedSize (w h : Z)
  | update.

Record OverlayWindow := mkOverlay {
  _keys : list Key;
  _theme : Theme;
  _pressed : gset string;
  calls : list Call
}.

Definition call (c : Call) (self : OverlayWindow) : OverlayWindow :=
  mkOverlay (_keys self) (_theme self) (_pressed self) (calls self ++ [c]).

Definition set_keys (keys : list Key) (self : OverlayWindow) : OverlayWindow :=
  mkOverlay keys (_theme self) (_pressed self) (calls self).

Definition set_theme_field (t : Theme) (self : OverlayWindow) : OverlayWindow :=
  mkOverlay (_keys self) t (_pressed self) (calls self).

Definition set_pressed (p : gset string) (self : OverlayWindow) : OverlayWindow :=
  mkOverlay (_keys self) (_theme self) p (calls self).

Definition is_update (c : Call) : bool :=
  match c with update => true | _ => false end.

(** The number of repaint requests ([self.update()]) made so far. *)
Definition repaints (self : OverlayWindow) : nat :=
  length (filter (fun c => is_update c = true) (calls self)).

Definition _setup_window (self : OverlayWindow) : OverlayWindow :=
  let self := call setWindowFlags self in
  let self := call (setAttribute "WA_TranslucentBackground") self in
  let self := call (setAttribute "WA_NoSystemBackground") self in
  let self := call (setWindowTitle "Keyboard Overlay") self in
  call (setWindowOpacity (get_float (_theme self) "overlay_alpha" (93 # 100))) self.

(** The loop of [_compute_geometry]: the running maxima start at 0. *)
Definition extent (unit gap kh : Z) (keys : list Key) : Q * Q :=
  fold_left
    (fun '(max_x, max_y) k =>
       let rx := (key_x k * inject_Z (unit + gap) + key_w k * inject_Z unit
                  + (key_w k - 1) * inject_Z gap)%Q in
       let ry := (key_y k * inject_Z (kh + gap) + key_h k * inject_Z kh
                  + (key_h k - 1) * inject_Z gap)%Q in
       (Py.max max_x rx, Py.max max_y ry))
    keys (0%Q, 0%Q).

(** The size [_compute_geometry] passes to [setFixedSize]. *)
Definition bounding_size (t : Theme) (keys : list Key) : Z * Z :=
  let unit := get_int t "key_unit_px" UNIT in
  let gap := get_int t "key_gap_px" 4 in
  let kh := get_int t "key_height_px" UNIT in
  let PAD := 10%Z in
  let '(max_x, max_y) := extent unit gap kh keys in
  let w := (Py.int max_x + PAD * 2)%Z in
  let h := (Py.int max_y + PAD * 2)%Z in
  (w, h).

Definition _compute_geometry (self : OverlayWindow) : OverlayWindow :=
  let '(w, h) := bounding_size (_theme self) (_keys self) in
  call (setFixedSize w h) self.

(** [OverlayWindow(keys, theme)]. *)
Definition __init__ (keys : list Key) (theme : Theme) : OverlayWindow :=
  let self := mkOverlay keys theme ∅ [] in
  let self := _setup_window self in
  _compute_geometry self.

(** [load_keys(keys, theme=None)]; [theme] is [None] or a dict. *)
Definition load_keys (keys : list Key) (theme : option Theme)
    (self : OverlayWindow) : OverlayWindow :=
  let self := set_keys keys self in
  let self :=
    match theme with
    | Some t => if theme_truthy t then set_theme_field t self else self
    | None => self
    end in
  let self := _setup_window self in
  let self := _compute_geometry self in
  call update self.

Definition update_key (key_id : string) (pressed : bool)
    (self : OverlayWindow) : OverlayWindow :=
  let changed := false in
  let '(self, changed) :=
    if pressed && negb (bool_decide (key_id ∈ _pressed self)) then
      (set_pressed ({[key_id]} ∪ _pressed self) self, true)
    else if negb pressed && bool_decide (key_id ∈ _pressed self) then
      (set_pressed (_pressed self ∖ {[key_id]}) self, true)
    else (self, changed) in
  if changed then call update self else self.

Definition set_theme (theme : Theme) (self : OverlayWindow) : OverlayWindow :=
  let self := set_theme_field theme self in
  let self := _setup_window self in
  let self := _compute_geometry self in
  call update self.

(** What one iteration of the paint loop draws for a key. *)
Record Painted := mkPainted {
  bg_color : QColor;
  outline_color : QColor;
  text_color : QColor;
  rect : QRectF;
  label : string;
  point_size : Z
}.

(** [k.get("color") and None]. *)
Definition and_None (o : option string) : option string :=
  if Py.truthy o then None else o.

(** The body of the [for k in self._keys] loop of [paintEvent]. *)
Definition paint_key (self : OverlayWindow) (k : Key) : Painted :=
  let t := _theme self in
  let unit := get_int t "key_unit_px" UNIT in
  let gap := get_int t "key_gap_px" 4 in
  let kh := get_int t "key_height_px" UNIT in
  let PAD := 10%Z in
  let kid := key_id k in
  let pressed := bool_decide (kid ∈ _pressed self) in
  let is_mouse := String.prefix "mouse_" kid in
  let bg_color :=
    if pressed then
      if is_mouse then _hex None (get_str t "mouse_pressed" "#1e90ff")
      else _hex (and_None (key_color k)) (get_str t "key_pressed" "#7b68ee")
    else
      if Py.truthy (key_color k) then
        _hex (key_color k) (get_str t "key_idle" "#2a2a3a")
      else if is_mouse then _hex None (get_str t "mouse_idle" "#1e3a5f")
      else _hex None (get_str t "key_idle" "#2a2a3a") in
  let outline_color :=
    _hex (Some (get_str t "key_outline" "#444466")) "#444466" in
  let text_color :=
    if Py.truthy (key_text_color k) then
      _hex (key_text_color k) (get_str t "key_text" "#ffffff")
    else _hex None (get_str t "key_text" "#ffffff") in
  let px := (inject_Z PAD + key_x k * inject_Z (unit + gap))%Q in
  let py := (inject_Z PAD + key_y k * inject_Z (kh + gap))%Q in
  let pw := (key_w k * inject_Z unit + (key_w k - 1) * inject_Z gap)%Q in
  let ph := (key_h k * inject_Z kh + (key_h k - 1) * inject_Z gap)%Q in
  let rect := mkRect px py pw ph in
  let label := key_label k in
  let size :=
    if (5 <? String.length label)%nat
    then Z.max 6 (get_int t "font_size" 10 - 2)
    else get_int t "font_size" 10 in
  mkPainted bg_color outline_color text_color rect label size.

Definition paintEvent (self : OverlayWindow) : list Painted :=
  map (paint_key self) (_keys self).

End Overlay.

(** ** The layout editor canvas ([editor.py]) *)

Module Editor.

Definition UNIT : Z := 44.
Definition GAP : Z := 4.
Definition KH : Z := 44.
Definition PAD : Z := 10.
Definition GRID : Z := 44.

(** The identity of a key dict. *)
Definition loc := nat.

(** Signals emitted and widget calls made by the canvas. *)
Inductive Signal :=
  | selection_changed (k : option loc)
  | layout_changed
  | update
  | setMinimumSize (w h : Z).

Record EditorCanvas := mkEditor {
  heap : gmap loc Key;
  _theme : Theme;
  _keys : list loc;
  _selected : option loc;
  _drag_key : option loc;
  _drag_offset : Q * Q;
  _snap : bool;
  _grid : Z;
  _show_grid : bool;
  trace : list Signal
}.

Definition set_heap (h : gmap loc Key) (self : EditorCanvas) : EditorCanvas :=
  mkEditor h (_theme self) (_keys self) (_selected self) (_drag_key self)
    (_drag_offset self) (_snap self) (_grid self) (_show_grid self) (trace self).

Definition set_keys (ks : list loc) (self : EditorCanvas) : EditorCanvas :=
  mkEditor (heap self) (_theme self) ks (_selected self) (_drag_key self)
    (_drag_offset self) (_snap self) (_grid self) (_show_grid self) (trace self).

Definition set_selected (s : option loc) (self : EditorCanvas) : EditorCanvas :=
  mkEditor (heap self) (_theme self) (_keys self) s (_drag_key self)
    (_drag_offset self) (_snap self) (_grid self) (_show_grid self) (trace self).

Definition set_drag (d : option loc) (off : Q * Q) (self : EditorCanvas)
    : EditorCanvas :=
  mkEditor (heap self) (_theme self) (_keys self) (_selected self) d
    off (_snap self) (_grid self) (_show_grid self) (trace self).

Definition emit (s : Signal) (self : EditorCanvas) : EditorCanvas :=
  mkEditor (heap self) (_theme self) (_keys self) (_selected self)
    (_drag_key self) (_drag_offset self) (_snap self) (_grid self)
    (_show_grid self) (trace self ++ [s]).

(** Reading a key dict through its identity. *)
Definition deref (h : gmap loc Key) (l : loc) : Py.Result Key :=
  match h !! l with
  | Some k => Py.Ok k
  | None => Py.Raise Py.DanglingRef
  end.

(** [EditorCanvas(theme)]. *)
Definition __init__ (theme : Theme) : EditorCanvas :=
  let self :=
    mkEditor ∅ theme [] None None (0%Q, 0%Q)
      (get_bool theme "snap_to_grid" true) (get_int theme "grid_size" GRID)
      (get_bool theme "grid_visible" true) [] in
  emit (setMinimumSize 900 500) self.

Definition _unit (self : EditorCanvas) : Z :=
  get_int (_theme self) "key_unit_px" UNIT.

Definition _gap (self : EditorCanvas) : Z :=
  get_int (_theme self) "key_gap_px" GAP.

Definition _kh (self : EditorCanvas) : Z :=
  get_int (_theme self) "key_height_px" KH.

Definition _key_rect (self : EditorCanvas) (k : Key) : QRectF :=
  let u := _unit self in
  let g := _gap self in
  let kh := _kh self in
  let px := (inject_Z PAD + key_x k * inject_Z (u + g))%Q in
  let py := (inject_Z PAD + key_y k * inject_Z (kh + g))%Q in
  let pw := (key_w k * inject_Z u + (key_w k - 1) * inject_Z g)%Q in
  let ph := (key_h k * inject_Z kh + (key_h k - 1) * inject_Z g)%Q in
  mkRect px py pw ph.

(** [_snap_pos(x, y)].  With snap on, the results are Python ints; they are
    injected into [Q] so that both branches have one type. *)
Definition _snap_pos (self : EditorCanvas) (x y : Q) : Py.Result (Q * Q) :=
  if negb (_snap self) then Py.Ok (x, y)
  else
    let u := _unit self in
    let g := _gap self in
    let kh := _kh self in
    let gx := (u + g)%Z in
    let gy := (kh + g)%Z in
    qx ← Py.div x gx;
    let sx := Py.round qx in
    qy ← Py.div y gy;
    let sy := Py.round qy in
    Py.Ok (inject_Z sx, inject_Z sy).

(** [copy.deepcopy(keys)]: every key dict is copied into a new object. *)
Fixpoint deepcopy (h : gmap loc Key) (keys : list Key)
    : gmap loc Key * list loc :=
  match keys with
  | [] => (h, [])
  | k :: rest =>
      let l := fresh (dom h) in
      let '(h', ls) := deepcopy (<[l := k]> h) rest in
      (h', l :: ls)
  end.

(** [max(f(k) for k in keys)] over a non-empty list of numbers. *)
Definition max_of (first : Q) (rest : list Q) : Q :=
  fold_left Py.max rest first.

Fixpoint deref_all (h : gmap loc Key) (ls : list loc) : Py.Result (list Key) :=
  match ls with
  | [] => Py.Ok []
  | l :: rest =>
      k ← deref h l;
      ks ← deref_all h rest;
      Py.Ok (k :: ks)
  end.

Definition _resize_to_fit (self : EditorCanvas) : Py.Result EditorCanvas :=
  ks ← deref_all (heap self) (_keys self);
  match ks with
  | [] => Py.Ok self
  | k0 :: rest =>
      let u := _unit self in
      let g := _gap self in
      let kh := _kh self in
      let right k := (inject_Z PAD + key_x k * inject_Z (u + g)
                      + key_w k * inject_Z u + (key_w k - 1) * inject_Z g)%Q in
      let bottom k := (inject_Z PAD + key_y k * inject_Z (kh + g)
                       + key_h k * inject_Z kh + (key_h k - 1) * inject_Z g)%Q in
      let max_x := max_of (right k0) (map right rest) in
      let max_y := max_of (bottom k0) (map bottom rest) in
      Py.Ok (emit (setMinimumSize (Py.int max_x + PAD * 4)
                                  (Py.int max_y + PAD * 4)) self)
  end.

Definition load_keys (keys : list Key) (self : EditorCanvas)
    : Py.Result EditorCanvas :=
  let '(h, ls) := deepcopy (heap self) keys in
  let self := set_keys ls (set_heap h self) in
  let self := set_selected None self in
  let self := emit (selection_changed None) self in
  let self := emit update self in
  _resize_to_fit self.

Definition get_keys (self : EditorCanvas) : Py.Result (list Key) :=
  deref_all (heap self) (_keys self).


(** ['%032x' % n]: the 32 lowercase hexadecimal digits of a UUID. *)
Definition hex_digit (n : N) : ascii :=
  match n with
  | 0 => "0" | 1 => "1" | 2 => "2" | 3 => "3" | 4 => "4" | 5 => "5"
  | 6 => "6" | 7 => "7" | 8 => "8" | 9 => "9" | 10 => "a" | 11 => "b"
  | 12 => "c" | 13 => "d" | 14 => "e" | _ => "f"
  end%N%char.

Fixpoint hex_digits (width : nat) (n : N) : string :=
  match width with
  | O => ""
  | S w => hex_digits w (n / 16)%N ++ String (hex_digit (n mod 16)%N) ""
  end.

Definition uuid_hex (u : N) : string := hex_digits 32 u.

(** The id [add_key] builds from the UUID it draws: [f"key_{u.hex[:6]}"]. *)
Definition new_key_id (u : N) : string :=
  "key_" ++ substring 0 6 (uuid_hex u).

(** [add_key()]; [u] is the value of [uuid.uuid4()], a 128-bit integer. *)
Definition add_key (u : N) (self : EditorCanvas) : EditorCanvas :=
  let new_id := new_key_id u in
  let k := mkKey new_id "New" 0 9 1 1 None None in
  let l := fresh (dom (heap self)) in
  let self := set_heap (<[l := k]> (heap self)) self in
  let self := set_keys (_keys self ++ [l]) self in
  let self := set_selected (Some l) self in
  let self := emit (selection_changed (Some l)) self in
  let self := emit layout_changed self in
  emit update self.

(** [[k for k in keys if k["id"] != kid]]. *)
Fixpoint without_id (h : gmap loc Key) (kid : string) (ls : list loc)
    : Py.Result (list loc) :=
  match ls with
  | [] => Py.Ok []
  | l :: rest =>
      k ← deref h l;
      rest' ← without_id h kid rest;
      Py.Ok (if String.eqb (key_id k) kid then rest' else l :: rest')
  end.

Definition delete_selected (self : EditorCanvas) : Py.Result EditorCanvas :=
  match _selected self with
  | None => Py.Ok self
  | Some sel =>
      s ← deref (heap self) sel;
      let kid := key_id s in
      ks ← without_id (heap self) kid (_keys self);
      let self := set_keys ks self in
      let self := set_selected None self in
      let self := emit (selection_changed None) self in
      let self := emit layout_changed self in
      Py.Ok (emit update self)
  end.

(** One entry of the [updates] dict of [update_selected]. *)
Inductive FieldUpdate :=
  | upd_id (v : string)
  | upd_label (v : string)
  | upd_x (v : Q)
  | upd_y (v : Q)
  | upd_w (v : Q)
  | upd_h (v : Q)
  | upd_color (v : option string)
  | upd_text_color (v : option string).

(** [k[key] = val]. *)
Definition setitem (k : Key) (u : FieldUpdate) : Key :=
  match u with
  | upd_id v =>
      mkKey v (key_label k) (key_x k) (key_y k) (key_w k) (key_h k)
        (key_color k) (key_text_color k)
  | upd_label v =>
      mkKey (key_id k) v (key_x k) (key_y k) (key_w k) (key_h k)
        (key_color k) (key_text_color k)
  | upd_x v =>
      mkKey (key_id k) (key_label k) v (key_y k) (key_w k) (key_h k)
        (key_color k) (key_text_color k)
  | upd_y v =>
      mkKey (key_id k) (key_label k) (key_x k) v (key_w k) (key_h k)
        (key_color k) (key_text_color k)
  | upd_w v =>
      mkKey (key_id k) (key_label k) (key_x k) (key_y k) v (key_h k)
        (key_color k) (key_text_color k)
  | upd_h v =>
      mkKey (key_id k) (key_label k) (key_x k) (key_y k) (key_w k) v
        (key_color k) (key_text_color k)
  | upd_color v =>
      mkKey (key_id k) (key_label k) (key_x k) (key_y k) (key_w k) (key_h k)
        v (key_text_color k)
  | upd_text_color v =>
      mkKey (key_id k) (key_label k) (key_x k) (key_y k) (key_w k) (key_h k)
        (key_color k) v
  end.

Definition update_selected (updates : list FieldUpdate) (self : EditorCanvas)
    : Py.Result EditorCanvas :=
  match _selected self with
  | None => Py.Ok self
  | Some sel =>
      s ← deref (heap self) sel;
      let s' := fold_left setitem updates s in
      let self := set_heap (<[sel := s']> (heap self)) self in
      let self := emit layout_changed self in
      Py.Ok (emit update self)
  end.

(** [QRectF.contains(point)] as Qt defines it: the edges belong to the
    rectangle, and a rectangle of zero width or height contains no point. *)
Definition contains (r : QRectF) (p : Q * Q) : bool :=
  let lt (a b : Q) := negb (Qle_bool b a) in
  let l := if lt (rw r) 0%Q then (rx r + rw r)%Q else rx r in
  let r' := if lt (rw r) 0%Q then rx r else (rx r + rw r)%Q in
  let t := if lt (rh r) 0%Q then (ry r + rh r)%Q else ry r in
  let b := if lt (rh r) 0%Q then ry r else (ry r + rh r)%Q in
  negb (Qeq_bool l r') && negb (lt (fst p) l) && negb (lt r' (fst p))
  && negb (Qeq_bool t b) && negb (lt (snd p) t) && negb (lt b (snd p)).

(** The loop of [_key_at] over an already reversed list. *)
Fixpoint first_hit (self : EditorCanvas) (pos : Q * Q) (ls : list loc)
    : Py.Result (option loc) :=
  match ls with
  | [] => Py.Ok None
  | l :: rest =>
      k ← deref (heap self) l;
      if contains (_key_rect self k) pos then Py.Ok (Some l)
      else first_hit self pos rest
  end.

Definition _key_at (self : EditorCanvas) (pos : Q * Q)
    : Py.Result (option loc) :=
  first_hit self pos (rev (_keys self)).

(** [mousePressEvent]; [left] says whether the event's button is the left
    one, [pos] is [event.position()]. *)
Definition mousePressEvent (left : bool) (pos : Q * Q) (self : EditorCanvas)
    : Py.Result EditorCanvas :=
  if left then
    hit ← _key_at self pos;
    match hit with
    | Some l =>
        k ← deref (heap self) l;
        let self := set_selected (Some l) self in
        let rect := _key_rect self k in
        let self :=
          set_drag (Some l) ((fst pos - rx rect)%Q, (snd pos - ry rect)%Q)
            self in
        let self := emit (selection_changed (Some l)) self in
        Py.Ok (emit update self)
    | None =>
        let self := set_selected None self in
        let self := emit (selection_changed None) self in
        Py.Ok (emit update self)
    end
  else Py.Ok self.

(** [mouseMoveEvent]; [left] says whether the left button is held. *)
Definition mouseMoveEvent (left : bool) (pos : Q * Q) (self : EditorCanvas)
    : Py.Result EditorCanvas :=
  match _drag_key self with
  | Some d =>
      if left then
        let u := _unit self in
        let g := _gap self in
        let kh := _kh self in
        raw_x ← Py.div (fst pos - fst (_drag_offset self) - inject_Z PAD)%Q
                  (u + g)%Z;
        raw_y ← Py.div (snd pos - snd (_drag_offset self) - inject_Z PAD)%Q
                  (kh + g)%Z;
        s ← _snap_pos self raw_x raw_y;
        let '(sx, sy) := s in
        k ← deref (heap self) d;
        let k :=
          setitem k (upd_x (Py.max 0 (if _snap self then sx
                                      else Py.max 0 raw_x))) in
        let k :=
          setitem k (upd_y (Py.max 0 (if _snap self then sy
                                      else Py.max 0 raw_y))) in
        let self := set_heap (<[d := k]> (heap self)) self in
        let self := emit layout_changed self in
        let self := emit (selection_changed (Some d)) self in
        let self := emit update self in
        _resize_to_fit self
      else Py.Ok self
  | None => Py.Ok self
  end.


(** [set_theme(theme)]: the snap and grid settings are read again from the
    theme. *)
Definition set_theme (theme : Theme) (self : EditorCanvas) : EditorCanvas :=
  let self :=
    mkEditor (heap self) theme (_keys self) (_selected self) (_drag_key self)
      (_drag_offset self) (get_bool theme "snap_to_grid" true)
      (get_int theme "grid_size" GRID) (get_bool theme "grid_visible" true)
      (trace self) in
  emit update self.


(** The editor's own [_hex(color, fallback="#2a2a3a")]. *)
Definition _hex (color : option string) (fallback : string) : QColor :=
  match color with
  | Some c => if Py.truthy color then mkQColor c else mkQColor fallback
  | None => mkQColor fallback
  end.

(** What the key loop of the editor's [paintEvent] draws for a key. *)
Record Painted := mkPainted {
  bg : QColor;
  ol : QColor;
  ol_w : Z;
  tc : QColor;
  rect : QRectF;
  label : string;
  point_size : Z
}.

(** The body of the [for k in self._keys] loop of [paintEvent]; [l] is the
    identity of the key dict [k]. *)
Definition paint_key (self : EditorCanvas) (l : loc) (k : Key) : Painted :=
  let t := _theme self in
  let rect := _key_rect self k in
  let selected := bool_decide (Some l = _selected self) in
  let bg :=
    if Py.truthy (key_color k) then _hex (key_color k) "#2a2a3a"
    else _hex (Some (get_str t "key_idle" "#2a2a3a")) "#2a2a3a" in
  let '(ol, ol_w) :=
    if selected then (mkQColor "#ffffff", 2%Z)
    else (_hex (Some (get_str t "key_outline" "#444466")) "#2a2a3a", 1%Z) in
  let tc :=
    _hex (if Py.truthy (key_text_color k) then key_text_color k
          else Some (get_str t "key_text" "#ffffff")) "#2a2a3a" in
  let size :=
    if (5 <? String.length (key_label k))%nat
    then Z.max 6 (get_int t "font_size" 10 - 2)
    else get_int t "font_size" 10 in
  mkPainted bg ol ol_w tc rect (key_label k) size.

Fixpoint paint_keys (self : EditorCanvas) (ls : list loc)
    : Py.Result (list Painted) :=
  match ls with
  | [] => Py.Ok []
  | l :: rest =>
      k ← deref (heap self) l;
      ps ← paint_keys self rest;
      Py.Ok (paint_key self l k :: ps)
  end.

(** The keys part of the editor's [paintEvent]. *)
Definition paintEvent (self : EditorCanvas) : Py.Result (list Painted) :=
  paint_keys self (_keys self).

End Editor.

(** ** The input listener ([listener.py]) *)

Module Listener.

(** The [char] attribute of a pynput key object: absent (reading it raises
    [AttributeError]), [None], or a string. *)
Inductive CharAttr := NoAttr | CharNone | Char (c : string).

(** A pynput key object as [_normalize] reads it: its [char] attribute, its
    [name] attribute ([None] when absent or [None]) and its [str()]. *)
Record KeyObj := mkKeyObj {
  char : CharAttr;
  name : option string;
  str : string
}.

(** [_normalize(key)]; [lower] is Python's [str.lower]. *)
Definition _normalize (lower : string → string) (key : KeyObj) : string :=
  let from_name :=
    let name :=
      match name key with
      | Some n => if Py.truthy (Some n) then n else str key
      | None => str key
      end in
    lower name in
  match char key with
  | Char c => if Py.truthy (Some c) then lower c else from_name
  | CharNone => from_name
  | NoAttr => from_name
  end.

(** How attaching one pynput listener goes: the constructor raises, or
    [start()] raises, or both return. *)
Inductive Attach := raises_in_constructor | raises_in_start | attaches.

(** Calls made on the two pynput listeners. *)
Inductive Call := kb_start | ms_start | kb_stop | ms_stop.

(** A listener object held in [_kb] or [_ms]: whether its [start()]
    returned. *)
Inductive Handle := running | not_running.

Record InputListener := mkListener {
  _kb : option Handle;
  _ms : option Handle;
  _started : bool;
  calls : list Call
}.

(** [InputListener(callback)]. *)
Definition __init__ : InputListener := mkListener None None false [].

(** The outcome of one [try] block of [start] on a listener field. *)
Definition attach (outcome : Attach) (field : option Handle)
    : option Handle :=
  match outcome with
  | raises_in_constructor => field
  | raises_in_start => Some not_running
  | attaches => Some running
  end.

Definition attach_calls (outcome : Attach) (c : Call) : list Call :=
  match outcome with
  | raises_in_constructor => []
  | raises_in_start => [c]
  | attaches => [c]
  end.

(** [start()]; [kb] and [ms] say how attaching each listener goes. *)
Definition start (kb ms : Attach) (self : InputListener) : InputListener :=
  if _started self then self
  else
    mkListener (attach kb (_kb self)) (attach ms (_ms self)) true
      (calls self ++ attach_calls kb kb_start ++ attach_calls ms ms_start).

(** [stop()]: an exception of [l.stop()] is caught, so the outcome of the
    call does not matter. *)
Definition stop (self : InputListener) : InputListener :=
  mkListener (_kb self) (_ms self) (_started self)
    (calls self
     ++ match _kb self with Some _ => [kb_stop] | None => [] end
     ++ match _ms self with Some _ => [ms_stop] | None => [] end).

(** [_on_kb_press(key)] and [_on_kb_release(key)]: the callback invocations
    made, as [(key_id, pressed)] pairs. *)
Definition _on_kb_press (lower : string → string) (key : KeyObj)
    : list (string * bool) :=
  let kid := _normalize lower key in
  if Py.truthy (Some kid) then [(kid, true)] else [].

Definition _on_kb_release (lower : string → string) (key : KeyObj)
    : list (string * bool) :=
  let kid := _normalize lower key in
  if Py.truthy (Some kid) then [(kid, false)] else [].

(** [_on_click(x, y, button, pressed)]; [button_name] is [button.name]. *)
Definition _on_click (button_name : string) (pressed : bool)
    : list (string * bool) :=
  let kid := "mouse_" ++ button_name in
  [(kid, pressed)].

End Listener.

(** ** Settings ([config.py]) and the theme handling of [main.py] *)

Module Config.

(** A value stored in the theme dict. *)
Inductive ThemeValue :=
  | VInt (z : Z)
  | VStr (s : string)
  | VBool (b : bool)
  | VFloat (q : Q).

(** The keys of a theme dict. *)
Definition keys_of (t : Theme) : gset string :=
  dom (theme_int t) ∪ dom (theme_str t) ∪ dom (theme_bool t)
  ∪ dom (theme_float t).

Definition without {V} (ks : gset string) (m : gmap string V)
    : gmap string V :=
  filter (fun kv => kv.1 ∉ ks) m.

(** [t[key] = v]: the entry replaces whatever the key held. *)
Definition setitem (t : Theme) (key : string) (v : ThemeValue) : Theme :=
  let ks : gset string := {[key]} in
  match v with
  | VInt z =>
      mkTheme (<[key := z]> (theme_int t)) (without ks (theme_str t))
        (without ks (theme_bool t)) (without ks (theme_float t))
  | VStr x =>
      mkTheme (without ks (theme_int t)) (<[key := x]> (theme_str t))
        (without ks (theme_bool t)) (without ks (theme_float t))
  | VBool b =>
      mkTheme (without ks (theme_int t)) (without ks (theme_str t))
        (<[key := b]> (theme_bool t)) (without ks (theme_float t))
  | VFloat q =>
      mkTheme (without ks (theme_int t)) (without ks (theme_str t))
        (without ks (theme_bool t)) (<[key := q]> (theme_float t))
  end.

(** [t.update(patch)] on a copy of [t]: the entries of [patch] replace those
    of [t] with the same key. *)
Definition dict_update (t patch : Theme) : Theme :=
  let ks := keys_of patch in
  mkTheme (theme_int patch ∪ without ks (theme_int t))
    (theme_str patch ∪ without ks (theme_str t))
    (theme_bool patch ∪ without ks (theme_bool t))
    (theme_float patch ∪ without ks (theme_float t)).

Definition empty_dict : Theme := mkTheme ∅ ∅ ∅ ∅.

(** What [json.load] reads from [settings.json] when it is a JSON object:
    each of the four known keys may be absent. *)
Record SettingsData := mkData {
  data_theme : option Theme;
  data_last_config : option (option string);
  data_overlay_x : option Z;
  data_overlay_y : option Z
}.

(** The settings file: absent, present but failing to load (unreadable, not
    JSON, not of the expected shape), or holding a settings object. *)
Inductive SettingsFile := missing | unreadable | content (d : SettingsData).

(** The dict object a settings dict holds under ["theme"]: the module's
    [DEFAULT_THEME] object itself, or a dict of its own. *)
Inductive ThemeRef := DEFAULT_THEME_object | own_dict (t : Theme).

Record Settings := mkSettings {
  theme : ThemeRef;
  last_config : option string;
  overlay_x : Z;
  overlay_y : Z
}.

(** A copy of [DEFAULT_SETTINGS]: [dict(DEFAULT_SETTINGS)] copies the outer
    dict only, so its theme is the [DEFAULT_THEME] object. *)
Definition DEFAULT_SETTINGS : Settings :=
  mkSettings DEFAULT_THEME_object None 100 100.

(** [load_settings()]; [default_theme] is what the [DEFAULT_THEME] object
    holds at the time of the call. *)
Definition load_settings (default_theme : Theme) (file : SettingsFile)
    : Settings :=
  match file with
  | content data =>
      mkSettings
        (own_dict
           (dict_update default_theme (default empty_dict (data_theme data))))
        (default None (data_last_config data))
        (default 100%Z (data_overlay_x data))
        (default 100%Z (data_overlay_y data))
  | unreadable => DEFAULT_SETTINGS
  | missing => DEFAULT_SETTINGS
  end.

(** The dict a theme reference designates. *)
Definition theme_of (default_theme : Theme) (r : ThemeRef) : Theme :=
  match r with
  | DEFAULT_THEME_object => default_theme
  | own_dict t => t
  end.

(** [save_settings(settings)]; [ok] says whether the file could be written
    (a failure is logged and leaves the file as it was). *)
Definition save_settings (ok : bool) (default_theme : Theme)
    (settings : Settings) (file : SettingsFile) : SettingsFile :=
  if ok then
    content
      (mkData (Some (theme_of default_theme (theme settings)))
         (Some (last_config settings)) (Some (overlay_x settings))
         (Some (overlay_y settings)))
  else file.

End Config.

Module Main.

(** The part of [MainWindow] that holds settings and theme.  [_settings]
    holds [_theme] under ["theme"] whenever a handler returns, so the theme
    is kept once.  [default_theme] is the current content of the module-level
    dict [DEFAULT_THEME] of [config.py], [file] that of [settings.json]. *)
Record MainWindow := mkMain {
  default_theme : Theme;
  _theme : Config.ThemeRef;
  last_config : option string;
  overlay_x : Z;
  overlay_y : Z;
  file : Config.SettingsFile
}.

(** The settings and theme part of [MainWindow()] at program start. *)
Definition __init__ (file : Config.SettingsFile) : MainWindow :=
  let settings := Config.load_settings DEFAULT_THEME file in
  mkMain DEFAULT_THEME (Config.theme settings)
    (Config.last_config settings) (Config.overlay_x settings)
    (Config.overlay_y settings) file.

(** The theme the window, and the widgets it hands [_theme] to, now see. *)
Definition current_theme (self : MainWindow) : Theme :=
  Config.theme_of (default_theme self) (_theme self).

(** The settings part of [_apply_theme()]. *)
Definition _apply_theme (ok : bool) (self : MainWindow) : MainWindow :=
  let settings :=
    Config.mkSettings (_theme self) (last_config self) (overlay_x self)
      (overlay_y self) in
  mkMain (default_theme self) (_theme self) (last_config self)
    (overlay_x self) (overlay_y self)
    (Config.save_settings ok (default_theme self) settings (file self)).

(** [_set_theme(key, val)]: the dict [_theme] refers to is changed in
    place. *)
Definition _set_theme (key : string) (val : Config.ThemeValue) (ok : bool)
    (self : MainWindow) : MainWindow :=
  let self :=
    match _theme self with
    | Config.DEFAULT_THEME_object =>
        mkMain (Config.setitem (default_theme self) key val) (_theme self)
          (last_config self) (overlay_x self) (overlay_y self) (file self)
    | Config.own_dict t =>
        mkMain (default_theme self)
          (Config.own_dict (Config.setitem t key val))
          (last_config self) (overlay_x self) (overlay_y self) (file self)
    end in
  _apply_theme ok self.

(** [_reset_theme()] once the user confirmed: [dict(DEFAULT_THEME)]. *)
Definition _reset_theme (ok : bool) (self : MainWindow) : MainWindow :=
  let self :=
    mkMain (default_theme self) (Config.own_dict (default_theme self))
      (last_config self) (overlay_x self) (overlay_y self) (file self) in
  _apply_theme ok self.

End Main.

(** ** Specification-side definitions *)

(** The background colour of a painted key as the specification words it:
    pressed mouse key, pressed key, idle key with its own colour, idle mouse
    key, idle key.  A key has its own colour when the [color] field holds a
    non-empty string. *)
Definition bg_color_spec (t : Theme) (pressed is_mouse : bool)
    (color : option string) : QColor :=
  if pressed && is_mouse then mkQColor (get_str t "mouse_pressed" "#1e90ff")
  else if pressed then mkQColor (get_str t "key_pressed" "#7b68ee")
  else
    match color with
    | Some c =>
        if negb (String.eqb c "") then mkQColor c
        else if is_mouse then mkQColor (get_str t "mouse_idle" "#1e3a5f")
        else mkQColor (get_str t "key_idle" "#2a2a3a")
    | None =>
        if is_mouse then mkQColor (get_str t "mouse_idle" "#1e3a5f")
        else mkQColor (get_str t "key_idle" "#2a2a3a")
    end.

(** The ids of the keys of a list of key objects, in list order; an object
    the store does not hold contributes nothing. *)
Definition ids_of (h : gmap Editor.loc Key) (ls : list Editor.loc)
    : list string :=
  omap (fun l => key_id <$> h !! l) ls.

(** Every key object the canvas refers to is in its store. *)
Definition in_store (h : gmap Editor.loc Key) (l : Editor.loc) : bool :=
  match h !! l with Some _ => true | None => false end.

Definition well_formed (self : Editor.EditorCanvas) : bool :=
  forallb (in_store (Editor.heap self)) (Editor._keys self)
  && from_option (in_store (Editor.heap self)) true (Editor._selected self)
  && from_option (in_store (Editor.heap self)) true (Editor._drag_key self).

(** The keys [delete_selected] keeps: those whose id differs from [kid]. *)
Definition other_id (h : gmap Editor.loc Key) (kid : string)
    (l : Editor.loc) : bool :=
  match h !! l with
  | Some k => negb (String.eqb (key_id k) kid)
  | None => false
  end.

(** The value of a hexadecimal digit, the inverse of [Editor.hex_digit]. *)
Definition hex_value (c : ascii) : N :=
  match c with
  | "0" => 0 | "1" => 1 | "2" => 2 | "3" => 3 | "4" => 4 | "5" => 5
  | "6" => 6 | "7" => 7 | "8" => 8 | "9" => 9 | "a" => 10 | "b" => 11
  | "c" => 12 | "d" => 13 | "e" => 14 | _ => 15
  end%char%N.

(** A value [uuid.uuid4()] can return: 128 bits with version nibble 4 and
    variant bits 10. *)
Definition is_uuid4 (u : N) : bool :=
  (u <? 2 ^ 128)%N
  && (N.land (N.shiftr u 76) 15 =? 4)%N
  && (N.land (N.shiftr u 62) 3 =? 2)%N.

(** ** Concrete states used in examples *)

Definition key_a : Key := mkKey "a" "A" 3 0 1 1 None None.

Definition uuid_1 : N := 0xabcdef00000040008000000000000000%N.
Definition uuid_2 : N := 0xabcdef00000040008000000000000001%N.
Definition uuid_3 : N := 0x12345600000040008000000000000000%N.

(** A fresh canvas on the default theme (snap-to-grid on). *)
Definition fresh_canvas : Editor.EditorCanvas :=
  Editor.__init__ DEFAULT_THEME.

(** The canvas after loading the single key [key_a] and pressing the left
    button on its top-left corner, pixel (154, 10). *)
Definition grabbed_canvas : Py.Result Editor.EditorCanvas :=
  e ← Editor.load_keys [key_a] fresh_canvas;
  Editor.mousePressEvent true (154 # 1, 10 # 1)%Q e.

(** The canvas after two keys were added; the second is selected. *)
Definition pair_canvas : Editor.EditorCanvas :=
  Editor.add_key uuid_3 (Editor.add_key uuid_1 fresh_canvas).

(** The canvas after two keys were added and the second, still selected,
    was given the id of the first in the properties panel. *)
Definition twin_canvas : Py.Result Editor.EditorCanvas :=
  Editor.update_selected
    [Editor.upd_id (Editor.new_key_id uuid_1); Editor.upd_label "New";
     Editor.upd_x 0; Editor.upd_y 9; Editor.upd_w 1; Editor.upd_h 1]
    pair_canvas.


(** ** Definitions used to state further properties *)

(** The renderer's handling of a sequence of key events, delivered in
    order, each through [update_key]. *)
Definition key_events (events : list (string * bool))
    (self : Overlay.OverlayWindow) : Overlay.OverlayWindow :=
  fold_left (fun s ev => Overlay.update_key ev.1 ev.2 s) events self.

(** The [pressed] flag of the last event for [kid], if there is one. *)
Fixpoint last_event (kid : string) (events : list (string * bool))
    : option bool :=
  match events with
  | [] => None
  | (k, p) :: rest =>
      match last_event kid rest with
      | Some q => Some q
      | None => if String.eqb k kid then Some p else None
      end
  end.

(** The right and bottom edge of a key, in pixels from the padding, as the
    loop of [_compute_geometry] computes them. *)
Definition right_of (unit gap : Z) (k : Key) : Q :=
  key_x k * inject_Z (unit + gap) + key_w k * inject_Z unit
  + (key_w k - 1) * inject_Z gap.

Definition bottom_of (kh gap : Z) (k : Key) : Q :=
  key_y k * inject_Z (kh + gap) + key_h k * inject_Z kh
  + (key_h k - 1) * inject_Z gap.

(** The loop of [_compute_geometry] from arbitrary starting maxima;
    [Overlay.extent] starts it at (0, 0). *)
Definition extent_from (unit gap kh : Z) (start : Q * Q) (keys : list Key)
    : Q * Q :=
  fold_left
    (fun '(max_x, max_y) k =>
       (Py.max max_x (right_of unit gap k), Py.max max_y (bottom_of kh gap k)))
    keys start.

(** The selected key, if any, is one of the listed keys. *)
Definition selection_listed (self : Editor.EditorCanvas) : bool :=
  match Editor._selected self with
  | Some l => bool_decide (l ∈ Editor._keys self)
  | None => true
  end.

(** The listed key objects are pairwise distinct. *)
Definition distinct_objects (self : Editor.EditorCanvas) : bool :=
  bool_decide (NoDup (Editor._keys self)).

(** The consistency of a canvas state: every key object referred to is in
    the store, the selection is a listed key, and no key object is listed
    twice. *)
Definition canvas_ok (self : Editor.EditorCanvas) : bool :=
  well_formed self && selection_listed self && distinct_objects self.






(** A sequence of theme changes made in the settings tab, each through
    [_set_theme(key, val)]; the flag says whether the save succeeded. *)
Definition theme_changes
    (changes : list (string * Config.ThemeValue * bool))
    (self : Main.MainWindow) : Main.MainWindow :=
  fold_left (fun s c => Main._set_theme c.1.1 c.1.2 c.2 s) changes self.

(** The last [setMinimumSize] call of a trace, if any. *)
Fixpoint last_minimum_size (tr : list Editor.Signal) : option (Z * Z) :=
  match tr with
  | [] => None
  | s :: rest =>
      match last_minimum_size rest with
      | Some wh => Some wh
      | None =>
          match s with
          | Editor.setMinimumSize w h => Some (w, h)
          | _ => None
          end
      end
  end.

(** ** The overlay renderer: properties *)

Section OverlayFacts.
Import Overlay.

Lemma repaints_call (c : Call) (self : OverlayWindow) :
  repaints (call c self)
  = (repaints self + if is_update c then 1 else 0)%nat.
Proof.
  unfold repaints, call; simpl.
  rewrite filter_app, length_app.
  destruct c; reflexivity.
Qed.

Lemma repaints_set_pressed (p : gset string) (self : OverlayWindow) :
  repaints (set_pressed p self) = repaints self.
Proof. reflexivity. Qed.

Lemma update_key_press_new (kid : string) (self : OverlayWindow) :
  kid ∉ _pressed self →
  update_key kid true self
  = call update (set_pressed ({[kid]} ∪ _pressed self) self).
Proof.
  intros Hn. unfold update_key.
  rewrite bool_decide_eq_false_2 by assumption. reflexivity.
Qed.

Lemma update_key_press_again (kid : string) (self : OverlayWindow) :
  kid ∈ _pressed self → update_key kid true self = self.
Proof.
  intros Hin. unfold update_key.
  rewrite bool_decide_eq_true_2 by assumption. reflexivity.
Qed.

Lemma update_key_release_down (kid : string) (self : OverlayWindow) :
  kid ∈ _pressed self →
  update_key kid false self
  = call update (set_pressed (_pressed self ∖ {[kid]}) self).
Proof.
  intros Hin. unfold update_key.
  rewrite bool_decide_eq_true_2 by assumption. reflexivity.
Qed.

Lemma update_key_release_up (kid : string) (self : OverlayWindow) :
  kid ∉ _pressed self → update_key kid false self = self.
Proof.
  intros Hn. unfold update_key.
  rewrite bool_decide_eq_false_2 by assumption. reflexivity.
Qed.

End OverlayFacts.

(** C1. [update_key(id, pressed)] leaves [id] in the pressed-set exactly when
    [pressed] is true and touches no other id; it requests a repaint exactly
    when the pressed-set changed.  Pressing an id that is up twice in a row
    requests one repaint, the second press none; releasing an id that is not
    in the pressed-set changes nothing at all. *)
Theorem update_key_pressed_set_and_repaint
    (self : Overlay.OverlayWindow) (kid : string) (pressed : bool) :
  let self' := Overlay.update_key kid pressed self in
  (kid ∈ Overlay._pressed self' ↔ pressed = true)
  ∧ (∀ other, other ≠ kid →
       other ∈ Overlay._pressed self' ↔ other ∈ Overlay._pressed self)
  ∧ Overlay.repaints self'
    = (Overlay.repaints self
       + if bool_decide (Overlay._pressed self' = Overlay._pressed self)
         then 0 else 1)%nat
  ∧ (kid ∉ Overlay._pressed self →
       Overlay.repaints
         (Overlay.update_key kid true (Overlay.update_key kid true self))
       = S (Overlay.repaints self))
  ∧ Overlay.repaints
      (Overlay.update_key kid true (Overlay.update_key kid true self))
    = Overlay.repaints (Overlay.update_key kid true self)
  ∧ (kid ∉ Overlay._pressed self → Overlay.update_key kid false self = self).
Proof.
  assert (Hagain : ∀ s, kid ∈ Overlay._pressed (Overlay.update_key kid true s)).
  { intros s. destruct (decide (kid ∈ Overlay._pressed s)) as [Hin | Hn].
    - rewrite update_key_press_again by assumption. assumption.
    - rewrite update_key_press_new by assumption. simpl. set_solver. }
  simpl. repeat split.
  - destruct pressed; [reflexivity |].
    destruct (decide (kid ∈ Overlay._pressed self)) as [Hin | Hn].
    + rewrite update_key_release_down by assumption. simpl. set_solver.
    + rewrite update_key_release_up by assumption. intros; contradiction.
  - intros ->. apply Hagain.
  - destruct pressed, (decide (kid ∈ Overlay._pressed self)) as [Hin | Hn];
      rewrite ?update_key_press_again, ?update_key_press_new,
        ?update_key_release_down, ?update_key_release_up by assumption;
      simpl; set_solver.
  - destruct pressed, (decide (kid ∈ Overlay._pressed self)) as [Hin | Hn];
      rewrite ?update_key_press_again, ?update_key_press_new,
        ?update_key_release_down, ?update_key_release_up by assumption;
      simpl; set_solver.
  - destruct pressed, (decide (kid ∈ Overlay._pressed self)) as [Hin | Hn];
      rewrite ?update_key_press_again, ?update_key_press_new,
        ?update_key_release_down, ?update_key_release_up by assumption;
      rewrite ?repaints_call, ?repaints_set_pressed; simpl.
    + rewrite bool_decide_eq_true_2 by reflexivity. lia.
    + rewrite bool_decide_eq_false_2 by set_solver. lia.
    + rewrite bool_decide_eq_false_2 by set_solver. lia.
    + rewrite bool_decide_eq_true_2 by reflexivity. lia.
  - intros Hn. rewrite (update_key_press_again kid) by apply Hagain.
    rewrite update_key_press_new by assumption.
    rewrite repaints_call, repaints_set_pressed. simpl. lia.
  - rewrite (update_key_press_again kid (Overlay.update_key kid true self))
      by apply Hagain.
    reflexivity.
  - apply update_key_release_up.
Qed.

(** The press-and-release example of C1 on a fresh window: the pressed-set
    goes from empty to [{"a"}] and back, with one repaint for a doubled
    press. *)
Lemma update_key_pressed_set_and_repaint_witness :
  ("a" ∉ Overlay._pressed (Overlay.__init__ [] DEFAULT_THEME))
  ∧ Overlay.repaints
      (Overlay.update_key "a" true
         (Overlay.update_key "a" true (Overlay.__init__ [] DEFAULT_THEME)))
    = S (Overlay.repaints (Overlay.__init__ [] DEFAULT_THEME))
  ∧ Overlay.update_key "a" false (Overlay.__init__ [] DEFAULT_THEME)
    = Overlay.__init__ [] DEFAULT_THEME.
Proof.
  assert ("a" ∉ Overlay._pressed (Overlay.__init__ [] DEFAULT_THEME)) as Hup.
  { simpl. set_solver. }
  pose proof (update_key_pressed_set_and_repaint
                (Overlay.__init__ [] DEFAULT_THEME) "a" true)
    as (_ & _ & _ & Htwice & _ & Hrel).
  split; [exact Hup |].
  split; [exact (Htwice Hup) | exact (Hrel Hup)].
Defined.

(** ** Geometry: properties *)

(** C2. The pixel rectangle of a key, in the editor ([_key_rect]) and in the
    overlay's paint loop alike, is [px = PAD + x*(unit+gap)],
    [py = PAD + y*(row_height+gap)], [pw = w*unit + (w-1)*gap],
    [ph = h*row_height + (h-1)*gap] with [PAD = 10]; with unit 44 and gap 4 a
    key at integer column [x] has [px = 10 + 48*x], and a key of width 1 is
    exactly one unit wide (44 pixels for unit 44), whatever the gap. *)
Theorem key_rect_pixels
    (e : Editor.EditorCanvas) (ov : Overlay.OverlayWindow) (k : Key) :
  let u := Editor._unit e in
  let g := Editor._gap e in
  let kh := Editor._kh e in
  let r := Editor._key_rect e k in
  let u' := get_int (Overlay._theme ov) "key_unit_px" 44 in
  let g' := get_int (Overlay._theme ov) "key_gap_px" 4 in
  let kh' := get_int (Overlay._theme ov) "key_height_px" 44 in
  let r' := Overlay.rect (Overlay.paint_key ov k) in
  (rx r == 10 + key_x k * (inject_Z u + inject_Z g)
   ∧ ry r == 10 + key_y k * (inject_Z kh + inject_Z g)
   ∧ rw r == key_w k * inject_Z u + (key_w k - 1) * inject_Z g
   ∧ rh r == key_h k * inject_Z kh + (key_h k - 1) * inject_Z g)%Q
  ∧ (rx r' == 10 + key_x k * (inject_Z u' + inject_Z g')
     ∧ ry r' == 10 + key_y k * (inject_Z kh' + inject_Z g')
     ∧ rw r' == key_w k * inject_Z u' + (key_w k - 1) * inject_Z g'
     ∧ rh r' == key_h k * inject_Z kh' + (key_h k - 1) * inject_Z g')%Q
  ∧ (∀ x : Z, (key_x k == inject_Z x)%Q →
       (u = 44%Z → g = 4%Z → (rx r == inject_Z (10 + x * 48))%Q)
       ∧ (u' = 44%Z → g' = 4%Z → (rx r' == inject_Z (10 + x * 48))%Q))
  ∧ ((key_w k == 1)%Q →
       (rw r == inject_Z u)%Q ∧ (rw r' == inject_Z u')%Q
       ∧ (u = 44%Z → (rw r == 44)%Q) ∧ (u' = 44%Z → (rw r' == 44)%Q)).
Proof.
  cbv zeta.
  unfold Editor._key_rect, Overlay.paint_key, Overlay.UNIT, Editor.PAD; simpl.
  split; [| split; [| split]].
  - rewrite !inject_Z_plus. repeat split; reflexivity.
  - rewrite !inject_Z_plus. repeat split; reflexivity.
  - intros x Hx. split; intros -> ->; rewrite Hx;
      rewrite <- inject_Z_mult, <- inject_Z_plus;
      replace (10 + x * (44 + 4))%Z with (10 + x * 48)%Z by lia;
      reflexivity.
  - intros Hw.
    assert (Hu : ∀ a b : Z,
               (key_w k * inject_Z a + (key_w k - 1) * inject_Z b
                == inject_Z a)%Q)
      by (intros a b; rewrite Hw; ring).
    repeat split.
    + apply Hu.
    + apply Hu.
    + intros Heq. rewrite Hu, Heq. reflexivity.
    + intros Heq. rewrite Hu, Heq. reflexivity.
Qed.

(** C2 on the default theme (unit 44, gap 4): a 1x1 key at column 3 starts at
    pixel 154 and is 44 pixels wide, in the editor and in the overlay. *)
Lemma key_rect_pixels_witness :
  (rx (Editor._key_rect (Editor.__init__ DEFAULT_THEME)
         (mkKey "a" "A" 3 0 1 1 None None)) == inject_Z (10 + 3 * 48))%Q
  ∧ (rx (Overlay.rect
           (Overlay.paint_key (Overlay.__init__ [] DEFAULT_THEME)
              (mkKey "a" "A" 3 0 1 1 None None)))
     == inject_Z (10 + 3 * 48))%Q
  ∧ (rw (Editor._key_rect (Editor.__init__ DEFAULT_THEME)
           (mkKey "a" "A" 3 0 1 1 None None)) == 44)%Q
  ∧ (rw (Overlay.rect
           (Overlay.paint_key (Overlay.__init__ [] DEFAULT_THEME)
              (mkKey "a" "A" 3 0 1 1 None None))) == 44)%Q.
Proof.
  pose proof (key_rect_pixels (Editor.__init__ DEFAULT_THEME)
                (Overlay.__init__ [] DEFAULT_THEME)
                (mkKey "a" "A" 3 0 1 1 None None))
    as (_ & _ & Hcol & Hwide).
  destruct (Hcol 3%Z ltac:(reflexivity)) as [He Ho].
  destruct (Hwide ltac:(reflexivity)) as (_ & _ & He' & Ho').
  split; [apply He; reflexivity |].
  split; [apply Ho; reflexivity |].
  split; [apply He'; reflexivity | apply Ho'; reflexivity].
Defined.

(** ** The overlay renderer: reloading and painting *)

(** C3, as the code has it.  [load_keys(keys, theme)] displays the given
    keys, replaces the theme when a non-empty one is given, sets the window
    up again, recomputes the bounding size from the new keys and theme and
    requests a repaint; the pressed-set is left as it was. *)
Theorem load_keys_keeps_pressed_set
    (self : Overlay.OverlayWindow) (keys : list Key) (theme : option Theme) :
  let self' := Overlay.load_keys keys theme self in
  let t' :=
    match theme with
    | Some t => if theme_truthy t then t else Overlay._theme self
    | None => Overlay._theme self
    end in
  Overlay._pressed self' = Overlay._pressed self
  ∧ Overlay._keys self' = keys
  ∧ Overlay._theme self' = t'
  ∧ Overlay.calls self'
    = (Overlay.calls self
      ++ [Overlay.setWindowFlags;
          Overlay.setAttribute "WA_TranslucentBackground";
          Overlay.setAttribute "WA_NoSystemBackground";
          Overlay.setWindowTitle "Keyboard Overlay";
          Overlay.setWindowOpacity (get_float t' "overlay_alpha" (93 # 100));
          Overlay.setFixedSize (fst (Overlay.bounding_size t' keys))
                               (snd (Overlay.bounding_size t' keys));
          Overlay.update])%list.
Proof.
  cbv zeta. unfold Overlay.load_keys, Overlay._compute_geometry.
  destruct theme as [t |]; [destruct (theme_truthy t) |]; simpl;
    match goal with
    | |- context [Overlay.bounding_size ?t ?ks] =>
        destruct (Overlay.bounding_size t ks) as [w h]
    end; simpl; rewrite <- ?app_assoc; simpl; auto.
Qed.

(** C3, counterexample.  A window on which ["a"] is down still has ["a"] in
    its pressed-set after [load_keys([], None)]: the set is not emptied. *)
Lemma load_keys_resets_pressed_set_counterexample :
  Overlay._pressed
    (Overlay.update_key "a" true (Overlay.__init__ [] DEFAULT_THEME))
  = {["a"]}
  ∧ Overlay._pressed
      (Overlay.load_keys [] None
         (Overlay.update_key "a" true (Overlay.__init__ [] DEFAULT_THEME)))
    ≠ ∅.
Proof.
  split.
  - apply set_eq. intros x. simpl. set_solver.
  - intros Hempty.
    assert ("a" ∈ (∅ : gset string)) as Hin; [| set_solver].
    rewrite <- Hempty. simpl. set_solver.
Qed.

(** C4. The background colour the paint loop gives a key is the one the
    specification's precedence rule names: theme mouse-pressed for a pressed
    mouse key, theme key-pressed for any other pressed key (its own colour is
    dropped), the key's own colour when idle and set, theme mouse-idle for an
    idle mouse key, theme key-idle otherwise. *)
Theorem paint_key_background (self : Overlay.OverlayWindow) (k : Key) :
  Overlay.bg_color (Overlay.paint_key self k)
  = bg_color_spec (Overlay._theme self)
      (bool_decide (key_id k ∈ Overlay._pressed self))
      (String.prefix "mouse_" (key_id k))
      (key_color k).
Proof.
  unfold Overlay.paint_key, bg_color_spec, Overlay._hex, Overlay.and_None.
  simpl.
  destruct (bool_decide (key_id k ∈ Overlay._pressed self)),
    (String.prefix "mouse_" (key_id k)), (key_color k) as [c |]; simpl;
    try reflexivity;
    destruct (String.eqb c "") eqn:Hempty; simpl; rewrite ?Hempty;
    reflexivity.
Qed.

(** ** The layout editor: properties *)

(** C9. Without a selection, [delete_selected] and [update_selected] return
    normally and leave the whole canvas state, trace of signals included, as
    it was. *)
Theorem no_selection_is_no_op
    (self : Editor.EditorCanvas) (updates : list Editor.FieldUpdate) :
  Editor._selected self = None →
  Editor.delete_selected self = Py.Ok self
  ∧ Editor.update_selected updates self = Py.Ok self.
Proof.
  intros Hnone. unfold Editor.delete_selected, Editor.update_selected.
  rewrite Hnone. split; reflexivity.
Qed.

Lemma no_selection_is_no_op_witness :
  Editor.delete_selected fresh_canvas = Py.Ok fresh_canvas
  ∧ Editor.update_selected [Editor.upd_label "Esc"; Editor.upd_w 2]
      fresh_canvas
    = Py.Ok fresh_canvas.
Proof.
  apply (no_selection_is_no_op fresh_canvas). reflexivity.
Defined.

(** C10. With no key, the overlay's bounding size is 20 x 20 (twice the
    padding of 10) under every theme, and that is the size
    [_compute_geometry] fixes; the editor's [_resize_to_fit] returns at its
    guard, leaving the canvas unchanged. *)
Theorem empty_layout_geometry
    (t : Theme) (ov : Overlay.OverlayWindow) (e : Editor.EditorCanvas) :
  Overlay.bounding_size t [] = (20%Z, 20%Z)
  ∧ (Overlay._keys ov = [] →
       Overlay.calls (Overlay._compute_geometry ov)
       = (Overlay.calls ov ++ [Overlay.setFixedSize 20 20])%list)
  ∧ (Editor._keys e = [] → Editor._resize_to_fit e = Py.Ok e).
Proof.
  split; [reflexivity |]. split.
  - intros Hempty. unfold Overlay._compute_geometry.
    rewrite Hempty. reflexivity.
  - intros Hempty. unfold Editor._resize_to_fit.
    rewrite Hempty. reflexivity.
Qed.

Lemma empty_layout_geometry_witness :
  Overlay.calls (Overlay._compute_geometry (Overlay.mkOverlay [] DEFAULT_THEME ∅ []))
  = [Overlay.setFixedSize 20 20]
  ∧ Editor._resize_to_fit fresh_canvas = Py.Ok fresh_canvas.
Proof.
  pose proof (empty_layout_geometry DEFAULT_THEME
                (Overlay.mkOverlay [] DEFAULT_THEME ∅ []) fresh_canvas)
    as (_ & Hov & Hed).
  split; [apply Hov; reflexivity | apply Hed; reflexivity].
Defined.

Section DeleteFacts.
Import Editor.

Variable h : gmap loc Key.

Lemma other_id_Some (kid : string) (l : loc) (k : Key) :
  h !! l = Some k → other_id h kid l = negb (String.eqb (key_id k) kid).
Proof. intros Hk. unfold other_id. rewrite Hk. reflexivity. Qed.

Lemma without_id_filter (kid : string) (ls : list loc) :
  (∀ l, l ∈ ls → is_Some (h !! l)) →
  without_id h kid ls = Py.Ok (List.filter (other_id h kid) ls).
Proof.
  induction ls as [| l ls IH]; intros Hall; simpl; [reflexivity |].
  destruct (Hall l) as [k Hk]; [left |].
  unfold deref. rewrite (other_id_Some kid l k Hk), Hk. simpl.
  rewrite IH by (intros l' Hl'; apply Hall; right; exact Hl'). simpl.
  destruct (String.eqb (key_id k) kid); reflexivity.
Qed.

Lemma ids_of_cons (l : loc) (k : Key) (ls : list loc) :
  h !! l = Some k → ids_of h (l :: ls) = key_id k :: ids_of h ls.
Proof. intros Hk. unfold ids_of. simpl. rewrite Hk. reflexivity. Qed.

Lemma elem_of_ids_of (l : loc) (k : Key) (ls : list loc) :
  l ∈ ls → h !! l = Some k → key_id k ∈ ids_of h ls.
Proof.
  intros Hin Hk. unfold ids_of. apply list_elem_of_omap.
  exists l. rewrite Hk. auto.
Qed.

(** A key list without the id [kid] is kept whole. *)
Lemma filter_absent_id (kid : string) (ls : list loc) :
  (∀ l, l ∈ ls → is_Some (h !! l)) →
  kid ∉ ids_of h ls → List.filter (other_id h kid) ls = ls.
Proof.
  induction ls as [| l ls IH]; intros Hall Hnot; simpl; [reflexivity |].
  destruct (Hall l) as [k Hk]; [left |].
  rewrite (ids_of_cons l k ls Hk) in Hnot.
  apply not_elem_of_cons in Hnot as [Hne Hnot].
  rewrite (other_id_Some kid l k Hk).
  destruct (String.eqb_spec (key_id k) kid) as [Heq | _]; [congruence |].
  simpl. f_equal. apply IH; [| exact Hnot].
  intros l' Hl'. apply Hall. right. exact Hl'.
Qed.

(** With pairwise distinct ids, filtering out the id of a listed key
    removes that key and nothing else. *)
Lemma filter_unique_id (sel : loc) (s : Key) (ls : list loc) :
  (∀ l, l ∈ ls → is_Some (h !! l)) →
  NoDup (ids_of h ls) → sel ∈ ls → h !! sel = Some s →
  (length (List.filter (other_id h (key_id s)) ls) + 1)%nat = length ls
  ∧ ∀ l, l ∈ List.filter (other_id h (key_id s)) ls ↔ l ∈ ls ∧ l ≠ sel.
Proof.
  induction ls as [| l ls IH]; intros Hall Hnd Hin Hs.
  { apply elem_of_nil in Hin. contradiction. }
  destruct (Hall l) as [k Hk]; [left |].
  rewrite (ids_of_cons l k ls Hk) in Hnd.
  apply NoDup_cons in Hnd as [Hfresh Hnd].
  assert (Hall' : ∀ l', l' ∈ ls → is_Some (h !! l'))
    by (intros l' Hl'; apply Hall; right; exact Hl').
  simpl. rewrite (other_id_Some (key_id s) l k Hk).
  destruct (decide (l = sel)) as [-> | Hne].
  - assert (k = s) as -> by congruence.
    rewrite String.eqb_refl. simpl.
    rewrite (filter_absent_id (key_id s) ls Hall' Hfresh).
    split; [simpl; lia |].
    intros l. split.
    + intros Hl. split; [right; exact Hl |].
      intros ->. apply Hfresh. eapply elem_of_ids_of; eauto.
    + intros [Hl Hne]. apply elem_of_cons in Hl as [-> | Hl];
        [contradiction | exact Hl].
  - apply elem_of_cons in Hin as [-> | Hin]; [contradiction |].
    destruct (String.eqb_spec (key_id k) (key_id s)) as [Heq | Hid].
    { exfalso. apply Hfresh. rewrite Heq. eapply elem_of_ids_of; eauto. }
    destruct (IH Hall' Hnd Hin Hs) as [Hlen Hmem]. simpl.
    split; [simpl; lia |].
    intros l'. rewrite elem_of_cons, Hmem, elem_of_cons.
    split.
    + intros [-> | [Hl' Hn]]; auto.
    + intros [[-> | Hl'] Hn]; auto.
Qed.

End DeleteFacts.

Lemma well_formed_keys (self : Editor.EditorCanvas) :
  well_formed self = true →
  ∀ l, l ∈ Editor._keys self → is_Some (Editor.heap self !! l).
Proof.
  unfold well_formed. rewrite !andb_true_iff, forallb_forall.
  intros [[Hkeys _] _] l Hl.
  specialize (Hkeys l (proj1 (list_elem_of_In _ _) Hl)).
  unfold in_store in Hkeys.
  destruct (Editor.heap self !! l); [eauto | discriminate].
Qed.

(** C6, as the code has it.  With a key selected, [delete_selected] keeps
    exactly the keys whose id differs from the selected key's id, clears the
    selection and emits its three signals.  When the ids of the working list
    are pairwise distinct and the selected key is in the list, that removes
    the selected key and nothing else: one entry. *)
Theorem delete_selected_removes_by_id
    (self : Editor.EditorCanvas) (sel : Editor.loc) (s : Key) :
  well_formed self = true →
  Editor._selected self = Some sel →
  Editor.heap self !! sel = Some s →
  ∃ self',
    Editor.delete_selected self = Py.Ok self'
    ∧ Editor._keys self'
      = List.filter (other_id (Editor.heap self) (key_id s))
          (Editor._keys self)
    ∧ Editor._selected self' = None
    ∧ Editor.heap self' = Editor.heap self
    ∧ Editor.trace self'
      = (Editor.trace self
         ++ [Editor.selection_changed None; Editor.layout_changed;
             Editor.update])%list
    ∧ (sel ∈ Editor._keys self →
       NoDup (ids_of (Editor.heap self) (Editor._keys self)) →
       (length (Editor._keys self') + 1)%nat = length (Editor._keys self)
       ∧ ∀ l, l ∈ Editor._keys self' ↔ l ∈ Editor._keys self ∧ l ≠ sel).
Proof.
  intros Hwf Hsel Hs.
  pose proof (well_formed_keys self Hwf) as Hall.
  unfold Editor.delete_selected. rewrite Hsel.
  unfold Editor.deref. rewrite Hs. simpl.
  rewrite (without_id_filter _ _ _ Hall). simpl.
  eexists. split; [reflexivity |]. simpl.
  split; [reflexivity |]. split; [reflexivity |]. split; [reflexivity |].
  split; [rewrite <- !app_assoc; reflexivity |].
  intros Hin Hnd.
  exact (filter_unique_id _ sel s _ Hall Hnd Hin Hs).
Qed.

Lemma delete_selected_removes_by_id_witness :
  ∃ self',
    Editor.delete_selected pair_canvas = Py.Ok self'
    ∧ Editor._selected self' = None
    ∧ (length (Editor._keys self') + 1)%nat = length (Editor._keys pair_canvas).
Proof.
  destruct (delete_selected_removes_by_id pair_canvas 1%nat
              (mkKey (Editor.new_key_id uuid_3) "New" 0 9 1 1 None None))
    as (self' & Hrun & _ & Hnone & _ & _ & Hone).
  - vm_compute. reflexivity.
  - vm_compute. reflexivity.
  - vm_compute. reflexivity.
  - exists self'. split; [exact Hrun |]. split; [exact Hnone |].
    apply Hone.
    + apply (bool_decide_unpack _). vm_compute. exact I.
    + apply (bool_decide_unpack _). vm_compute. exact I.
Defined.

(** C6, counterexample.  On a canvas whose two keys share one id, with the
    second selected, [delete_selected] empties the list: two entries go, not
    one. *)
Lemma delete_selected_exactly_one_counterexample :
  (fun e => (ids_of (Editor.heap e) (Editor._keys e), Editor._selected e))
    <$> twin_canvas
  = Py.Ok (["key_abcdef"; "key_abcdef"], Some 1%nat)
  ∧ (fun e => length (Editor._keys e))
      <$> (twin_canvas ≫= Editor.delete_selected)
    = Py.Ok 0%nat.
Proof. vm_compute. split; reflexivity. Qed.

Section HexFacts.
Import Editor.

Lemma length_string_app (s t : string) :
  String.length (s ++ t) = (String.length s + String.length t)%nat.
Proof. induction s as [| c s IH]; simpl; [| rewrite IH]; reflexivity. Qed.

Lemma length_hex_digits (w : nat) (n : N) :
  String.length (hex_digits w n) = w.
Proof.
  revert n. induction w as [| w IH]; intros n; simpl; [reflexivity |].
  rewrite length_string_app, IH. simpl. lia.
Qed.

Lemma substring_whole (s : string) : substring 0 (String.length s) s = s.
Proof. induction s as [| c s IH]; simpl; [| rewrite IH]; reflexivity. Qed.

Lemma substring_app_short (n : nat) (s t : string) :
  (n ≤ String.length s)%nat → substring 0 n (s ++ t) = substring 0 n s.
Proof.
  revert n. induction s as [| c s IH]; intros n Hn; simpl in *.
  - assert (n = 0%nat) as -> by lia. destruct t; reflexivity.
  - destruct n as [| n]; [reflexivity |].
    simpl. rewrite IH by lia. reflexivity.
Qed.

(** The first [w] of [k + w] hexadecimal digits are the digits of the
    number shifted right by [k] digits. *)
Lemma substring_hex_digits (k w : nat) (n : N) :
  substring 0 w (hex_digits (k + w) n)
  = hex_digits w (n / 16 ^ N.of_nat k)%N.
Proof.
  revert n. induction k as [| k IH]; intros n.
  - simpl. rewrite N.div_1_r.
    rewrite <- (length_hex_digits w n) at 1. apply substring_whole.
  - change (S k + w)%nat with (S (k + w)). simpl hex_digits.
    rewrite substring_app_short by (rewrite length_hex_digits; lia).
    rewrite IH. f_equal.
    rewrite Nat2N.inj_succ, N.pow_succ_r', N.Div0.div_div.
    reflexivity.
Qed.

Lemma hex_value_digit (n : N) : (n < 16)%N → hex_value (hex_digit n) = n.
Proof.
  intros Hn.
  destruct n as [| p]; [reflexivity |].
  do 4 (destruct p as [p | p |]; try reflexivity); lia.
Qed.

Lemma app_single_inj (s1 s2 : string) (c1 c2 : ascii) :
  s1 ++ String c1 "" = s2 ++ String c2 "" → s1 = s2 ∧ c1 = c2.
Proof.
  revert s2. induction s1 as [| a s1 IH]; intros [| b s2] Heq;
    simpl in Heq.
  - injection Heq as ->. auto.
  - injection Heq as -> Heq. destruct s2; discriminate.
  - injection Heq as -> Heq. destruct s1; discriminate.
  - injection Heq as -> Heq. destruct (IH _ Heq) as [-> ->]. auto.
Qed.

Lemma string_app_inv_head (p a b : string) : p ++ a = p ++ b → a = b.
Proof.
  induction p as [| c p IH]; simpl; intros Heq; [exact Heq |].
  injection Heq as Heq. auto.
Qed.

(** Equal digit strings come from numbers equal modulo [16 ^ w]. *)
Lemma hex_digits_inj (w : nat) (a b : N) :
  hex_digits w a = hex_digits w b →
  (a mod 16 ^ N.of_nat w = b mod 16 ^ N.of_nat w)%N.
Proof.
  revert a b. induction w as [| w IH]; intros a b Heq.
  - simpl. rewrite !N.mod_1_r. reflexivity.
  - simpl in Heq. apply app_single_inj in Heq as [Hhigh Hlow].
    apply IH in Hhigh.
    apply (f_equal hex_value) in Hlow.
    rewrite !hex_value_digit in Hlow by (apply N.mod_lt; lia).
    rewrite Nat2N.inj_succ, N.pow_succ_r'.
    rewrite !N.Div0.mod_mul_r. congruence.
Qed.

(** Two UUIDs give the same key id exactly when their top 24 bits, the
    first six hexadecimal digits, agree. *)
Lemma new_key_id_eq_iff (u1 u2 : N) :
  (u1 < 2 ^ 128)%N → (u2 < 2 ^ 128)%N →
  new_key_id u1 = new_key_id u2 ↔ (u1 / 2 ^ 104 = u2 / 2 ^ 104)%N.
Proof.
  intros H1 H2. unfold new_key_id, uuid_hex.
  change 32%nat with (26 + 6)%nat.
  rewrite !substring_hex_digits.
  change (16 ^ N.of_nat 26)%N with (2 ^ 104)%N.
  split.
  - intros Heq. apply string_app_inv_head, hex_digits_inj in Heq.
    change (16 ^ N.of_nat 6)%N with (2 ^ 24)%N in Heq.
    assert (Hsmall : ∀ u, (u < 2 ^ 128)%N → (u / 2 ^ 104 < 2 ^ 24)%N).
    { intros u Hu. apply N.Div0.div_lt_upper_bound.
      rewrite <- N.pow_add_r. exact Hu. }
    rewrite !N.mod_small in Heq by auto. exact Heq.
  - intros ->. reflexivity.
Qed.

End HexFacts.

(** C8, as the code has it.  [add_key()] creates one new key object, appends
    it to the working list and selects it; the key has label "New", size
    1 x 1, position (0, 9), no colours, and the id "key_" followed by the
    first six hexadecimal digits of the UUID drawn.  The id is not compared
    with any other id: two consecutive calls give two distinct objects, whose
    ids differ exactly when the two UUIDs differ in their top 24 bits. *)
Theorem add_key_appends_selected
    (self : Editor.EditorCanvas) (u u' : N) :
  let l := fresh (dom (Editor.heap self)) in
  let self1 := Editor.add_key u self in
  let l' := fresh (dom (Editor.heap self1)) in
  let self2 := Editor.add_key u' self1 in
  Editor.heap self !! l = None
  ∧ Editor._keys self1 = (Editor._keys self ++ [l])%list
  ∧ Editor.heap self1
    = <[l := mkKey ("key_" ++ substring 0 6 (Editor.uuid_hex u)) "New"
               0 9 1 1 None None]> (Editor.heap self)
  ∧ Editor._selected self1 = Some l
  ∧ Editor.trace self1
    = (Editor.trace self
       ++ [Editor.selection_changed (Some l); Editor.layout_changed;
           Editor.update])%list
  ∧ l' ≠ l
  ∧ Editor._keys self2 = (Editor._keys self ++ [l; l'])%list
  ∧ ids_of (Editor.heap self2) [l; l']
    = [Editor.new_key_id u; Editor.new_key_id u']
  ∧ ((u < 2 ^ 128)%N → (u' < 2 ^ 128)%N →
     Editor.new_key_id u ≠ Editor.new_key_id u'
     ↔ (u / 2 ^ 104)%N ≠ (u' / 2 ^ 104)%N).
Proof.
  cbv zeta.
  set (l := fresh (dom (Editor.heap self))).
  assert (Hfresh : Editor.heap self !! l = None).
  { apply not_elem_of_dom. apply is_fresh. }
  set (self1 := Editor.add_key u self).
  set (l' := fresh (dom (Editor.heap self1))).
  assert (Hne : l' ≠ l).
  { intros Heq.
    apply (is_fresh (dom (Editor.heap self1))). fold l'. rewrite Heq.
    apply elem_of_dom. unfold self1, Editor.add_key. simpl. fold l.
    rewrite lookup_insert_eq. eauto. }
  split; [exact Hfresh |].
  split; [reflexivity |].
  split; [reflexivity |].
  split; [reflexivity |].
  split; [unfold self1, Editor.add_key; simpl; rewrite <- !app_assoc;
          reflexivity |].
  split; [exact Hne |].
  split; [unfold self1, Editor.add_key; simpl; rewrite <- !app_assoc;
          reflexivity |].
  split.
  - unfold ids_of, Editor.add_key. simpl. fold l. fold self1. fold l'.
    rewrite lookup_insert_ne by exact Hne.
    unfold self1, Editor.add_key. simpl. fold l.
    rewrite lookup_insert_eq. simpl.
    rewrite lookup_insert_eq. reflexivity.
  - intros Hu Hu'. rewrite (new_key_id_eq_iff u u' Hu Hu'). reflexivity.
Qed.

Lemma add_key_appends_selected_witness :
  Editor.new_key_id uuid_1 ≠ Editor.new_key_id uuid_3.
Proof.
  pose proof (add_key_appends_selected fresh_canvas uuid_1 uuid_3)
    as (_ & _ & _ & _ & _ & _ & _ & _ & Hiff).
  apply Hiff.
  - reflexivity.
  - reflexivity.
  - vm_compute. discriminate.
Defined.

(** C8, counterexample.  [uuid_1] and [uuid_2] are two different version-4
    UUIDs with the same first six digits: two consecutive [add_key] calls
    that draw them give two keys with the id "key_abcdef".  And a layout
    that already holds the id "key_abcdef" gets a second key with it. *)
Lemma add_key_unique_id_counterexample :
  is_uuid4 uuid_1 = true ∧ is_uuid4 uuid_2 = true ∧ uuid_1 ≠ uuid_2
  ∧ (fun e => ids_of (Editor.heap e) (Editor._keys e))
      (Editor.add_key uuid_2 (Editor.add_key uuid_1 fresh_canvas))
    = ["key_abcdef"; "key_abcdef"]
  ∧ (fun e => ids_of (Editor.heap e) (Editor._keys e))
      <$> (Editor.add_key uuid_1
             <$> Editor.load_keys
                   [mkKey "key_abcdef" "Esc" 0 0 1 1 None None] fresh_canvas)
    = Py.Ok ["key_abcdef"; "key_abcdef"].
Proof.
  split; [reflexivity |]. split; [reflexivity |].
  split; [discriminate |].
  split; vm_compute; reflexivity.
Qed.

(** ** Dragging and snapping *)

Section DragFacts.
Import Editor.

Lemma deref_all_ok (h : gmap loc Key) (ls : list loc) :
  (∀ l, l ∈ ls → is_Some (h !! l)) → ∃ ks, deref_all h ls = Py.Ok ks.
Proof.
  induction ls as [| l ls IH]; intros Hall; simpl; [eauto |].
  destruct (Hall l) as [k Hk]; [left |].
  destruct IH as [ks Hks]; [intros l' Hl'; apply Hall; right; exact Hl' |].
  unfold deref. rewrite Hk. simpl. rewrite Hks. simpl. eauto.
Qed.


(** Rounding an integer gives it back: rounding alone is idempotent. *)
Lemma round_inject_Z (z : Z) : Py.round (inject_Z z) = z.
Proof.
  unfold Py.round. rewrite Qfloor_Z.
  assert ((inject_Z z - inject_Z z ?= 1 # 2)%Q = Lt) as ->; [| reflexivity].
  apply (proj1 (Qlt_alt _ _)).
  unfold Qlt, Qminus, Qplus, Qopp, inject_Z. simpl. lia.
Qed.



End DragFacts.

(** C7, at a failing input.  On the default theme (cell pitch 48) with snap
    on, [_snap_pos(480, 480)] is (10, 10), and [_snap_pos(10, 10)] is (0, 0):
    the second application divides by the pitch again. *)
Lemma snap_pos_twice_at_480 :
  Editor._snap fresh_canvas = true
  ∧ Editor._snap_pos fresh_canvas 480 480 = Py.Ok (10 # 1, 10 # 1)%Q
  ∧ Editor._snap_pos fresh_canvas (10 # 1) (10 # 1) = Py.Ok (0 # 1, 0 # 1)%Q.
Proof. vm_compute. repeat split; reflexivity. Qed.

(** C5, at a failing input.  Key [key_a] sits at column 3 and is grabbed at
    its top-left corner.  Moving the pointer one cell to the right, to pixel
    (202, 10), gives the raw ratio (202 - 0 - 10) / 48 = 4, which rounds
    to 4; the key lands on column 0, since [_snap_pos] divides the ratio by
    the pitch once more before rounding. *)
Lemma drag_with_snap_at_one_cell_right :
  Editor._snap <$> grabbed_canvas = Py.Ok true
  ∧ Editor._drag_key <$> grabbed_canvas = Py.Ok (Some 0%nat)
  ∧ Editor._drag_offset <$> grabbed_canvas = Py.Ok (0 # 1, 0 # 1)%Q
  ∧ Py.round ((202 - 0 - 10) / inject_Z (44 + 4)) = 4%Z
  ∧ (fun e => key_x <$> Editor.heap e !! 0%nat)
      <$> (grabbed_canvas ≫= Editor.mouseMoveEvent true (202 # 1, 10 # 1)%Q)
    = Py.Ok (Some (0 # 1)%Q).
Proof. vm_compute. repeat split; reflexivity. Qed.

(** ** The overlay renderer: bounding size *)

Section ExtentFacts.

Variables unit gap kh : Z.

Lemma py_max_cases (a b : Q) : Py.max a b = a ∨ Py.max a b = b.
Proof.
  unfold Py.max, Qmax, GenericMinMax.gmax.
  destruct (a ?= b)%Q; auto.
Qed.

Lemma extent_is_extent_from (keys : list Key) :
  Overlay.extent unit gap kh keys = extent_from unit gap kh (0, 0)%Q keys.
Proof. reflexivity. Qed.

(** The maxima only grow, and bound the edges of every key seen. *)
Lemma extent_from_bounds (keys : list Key) (ax ay : Q) :
  let m := extent_from unit gap kh (ax, ay) keys in
  (ax <= m.1)%Q ∧ (ay <= m.2)%Q
  ∧ ∀ k, k ∈ keys →
      (right_of unit gap k <= m.1)%Q ∧ (bottom_of kh gap k <= m.2)%Q.
Proof.
  revert ax ay. induction keys as [| k0 keys IH]; intros ax ay; simpl.
  - split; [apply Qle_refl |]. split; [apply Qle_refl |].
    intros k Hk. apply elem_of_nil in Hk. contradiction.
  - specialize (IH (Py.max ax (right_of unit gap k0))
                   (Py.max ay (bottom_of kh gap k0))).
    simpl in IH. destruct IH as (Hx & Hy & Hall).
    split; [eapply Qle_trans; [apply Q.le_max_l | exact Hx] |].
    split; [eapply Qle_trans; [apply Q.le_max_l | exact Hy] |].
    intros k Hk. apply elem_of_cons in Hk as [-> | Hk]; [| auto].
    split; (eapply Qle_trans; [apply Q.le_max_r |]); eassumption.
Qed.

(** Each maximum is the starting value or the edge of one of the keys. *)
Lemma extent_from_attained (keys : list Key) (ax ay : Q) :
  let m := extent_from unit gap kh (ax, ay) keys in
  (m.1 = ax ∨ ∃ k, k ∈ keys ∧ m.1 = right_of unit gap k)
  ∧ (m.2 = ay ∨ ∃ k, k ∈ keys ∧ m.2 = bottom_of kh gap k).
Proof.
  revert ax ay. induction keys as [| k0 keys IH]; intros ax ay; simpl.
  - auto.
  - specialize (IH (Py.max ax (right_of unit gap k0))
                   (Py.max ay (bottom_of kh gap k0))).
    simpl in IH. destruct IH as [Hx Hy]. split.
    + destruct Hx as [-> | (k & Hk & ->)].
      * destruct (py_max_cases ax (right_of unit gap k0)) as [-> | ->];
          [auto |]. right. exists k0. split; [left | reflexivity].
      * right. exists k. split; [right; exact Hk | reflexivity].
    + destruct Hy as [-> | (k & Hk & ->)].
      * destruct (py_max_cases ay (bottom_of kh gap k0)) as [-> | ->];
          [auto |]. right. exists k0. split; [left | reflexivity].
      * right. exists k. split; [right; exact Hk | reflexivity].
Qed.

End ExtentFacts.

Lemma py_int_nonneg (q : Q) : (0 <= q)%Q → Py.int q = Qfloor q.
Proof.
  intros Hq. unfold Py.int.
  rewrite (proj2 (Qle_bool_iff 0 q) Hq). reflexivity.
Qed.

(** The bounding size in closed form: the maxima are never negative, so
    [int()] is the floor. *)
Lemma bounding_size_floor (t : Theme) (keys : list Key) :
  let m :=
    extent_from (get_int t "key_unit_px" 44) (get_int t "key_gap_px" 4)
      (get_int t "key_height_px" 44) (0, 0)%Q keys in
  Overlay.bounding_size t keys = ((Qfloor m.1 + 20)%Z, (Qfloor m.2 + 20)%Z)
  ∧ (0 <= m.1)%Q ∧ (0 <= m.2)%Q.
Proof.
  cbv zeta. unfold Overlay.bounding_size, Overlay.UNIT.
  rewrite extent_is_extent_from.
  pose proof (extent_from_bounds (get_int t "key_unit_px" 44)
                (get_int t "key_gap_px" 4) (get_int t "key_height_px" 44)
                keys 0 0) as (Hx & Hy & _).
  destruct (extent_from _ _ _ _ keys) as [mx my]. simpl in *.
  rewrite (py_int_nonneg mx Hx), (py_int_nonneg my Hy).
  auto.
Qed.

(** X1. Whatever the theme and the keys (keys at negative positions or of
    negative size included), the window is at least 20 x 20 pixels: the
    running maxima never fall below their start at 0. *)
Theorem bounding_size_at_least_padding (t : Theme) (keys : list Key) :
  (20 <= (Overlay.bounding_size t keys).1)%Z
  ∧ (20 <= (Overlay.bounding_size t keys).2)%Z.
Proof.
  destruct (bounding_size_floor t keys) as (-> & Hx & Hy). simpl.
  apply Qfloor_resp_le in Hx, Hy.
  change (Qfloor 0) with 0%Z in Hx, Hy. lia.
Qed.



(** X3. The bounding size grows with the set of keys and depends on nothing
    else about the list: a list whose keys all occur in another is given a
    window no larger, so two lists with the same keys (in any order, with any
    repetitions) get the same window. *)
Theorem bounding_size_monotone (t : Theme) (keys keys' : list Key) :
  (∀ k, k ∈ keys → k ∈ keys') →
  ((Overlay.bounding_size t keys).1 <= (Overlay.bounding_size t keys').1)%Z
  ∧ ((Overlay.bounding_size t keys).2 <= (Overlay.bounding_size t keys').2)%Z.
Proof.
  intros Hsub.
  destruct (bounding_size_floor t keys) as (-> & _ & _).
  destruct (bounding_size_floor t keys') as (-> & Hx' & Hy').
  pose proof (extent_from_attained (get_int t "key_unit_px" 44)
                (get_int t "key_gap_px" 4) (get_int t "key_height_px" 44)
                keys 0 0) as [Hx Hy].
  pose proof (extent_from_bounds (get_int t "key_unit_px" 44)
                (get_int t "key_gap_px" 4) (get_int t "key_height_px" 44)
                keys' 0 0) as (_ & _ & Hall).
  set (m := extent_from _ _ _ _ keys) in *.
  set (m' := extent_from _ _ _ _ keys') in *.
  simpl. split.
  - assert (m.1 <= m'.1)%Q as Hle.
    { destruct Hx as [-> | (k & Hk & ->)]; [exact Hx' |].
      apply (Hall k (Hsub k Hk)). }
    apply Qfloor_resp_le in Hle. lia.
  - assert (m.2 <= m'.2)%Q as Hle.
    { destruct Hy as [-> | (k & Hk & ->)]; [exact Hy' |].
      apply (Hall k (Hsub k Hk)). }
    apply Qfloor_resp_le in Hle. lia.
Qed.

Lemma bounding_size_monotone_witness :
  ((Overlay.bounding_size DEFAULT_THEME [key_a]).1
   <= (Overlay.bounding_size DEFAULT_THEME
         [mkKey "b" "B" 5 2 1 1 None None; key_a]).1)%Z.
Proof.
  apply (bounding_size_monotone DEFAULT_THEME [key_a]
           [mkKey "b" "B" 5 2 1 1 None None; key_a]).
  intros k Hk. apply list_elem_of_singleton in Hk as ->.
  right. left.
Defined.

(** ** The overlay renderer: sequences of events *)

Section EventFacts.
Import Overlay.

Lemma update_key_elem (k other : string) (p : bool) (self : OverlayWindow) :
  other ∈ _pressed (update_key k p self)
  ↔ if String.eqb k other then p = true else other ∈ _pressed self.
Proof.
  destruct (String.eqb_spec k other) as [<- | Hne];
    destruct p, (decide (k ∈ _pressed self)) as [Hin | Hn];
    rewrite ?update_key_press_again, ?update_key_press_new,
      ?update_key_release_down, ?update_key_release_up by assumption;
    simpl; set_solver.
Qed.

Lemma update_key_frame (k : string) (p : bool) (self : OverlayWindow) :
  _keys (update_key k p self) = _keys self
  ∧ _theme (update_key k p self) = _theme self
  ∧ (repaints (update_key k p self) <= S (repaints self))%nat.
Proof.
  destruct p, (decide (k ∈ _pressed self)) as [Hin | Hn];
    rewrite ?update_key_press_again, ?update_key_press_new,
      ?update_key_release_down, ?update_key_release_up by assumption;
    rewrite ?repaints_call, ?repaints_set_pressed; simpl;
    repeat split; lia.
Qed.

End EventFacts.

(** X4. After any sequence of key events, an id is in the pressed-set
    exactly when its last event was a press, or, if the sequence has no event
    for it, when it was in the set before.  The events change neither the
    keys nor the theme, and request at most one repaint each. *)
Theorem key_events_last_event_wins
    (events : list (string * bool)) (self : Overlay.OverlayWindow)
    (kid : string) :
  (kid ∈ Overlay._pressed (key_events events self)
   ↔ match last_event kid events with
     | Some p => p = true
     | None => kid ∈ Overlay._pressed self
     end)
  ∧ Overlay._keys (key_events events self) = Overlay._keys self
  ∧ Overlay._theme (key_events events self) = Overlay._theme self
  ∧ (Overlay.repaints (key_events events self)
     <= Overlay.repaints self + length events)%nat.
Proof.
  revert self. induction events as [| [k p] rest IH]; intros self.
  - simpl. repeat split; auto. lia.
  - change (key_events ((k, p) :: rest) self)
      with (key_events rest (Overlay.update_key k p self)).
    destruct (IH (Overlay.update_key k p self)) as (Hin & Hkeys & Hth & Hrep).
    destruct (update_key_frame k p self) as (Hkeys' & Hth' & Hrep').
    split; [| split; [congruence | split; [congruence | simpl; lia]]].
    rewrite Hin. simpl.
    destruct (last_event kid rest) as [q |]; [reflexivity |].
    rewrite update_key_elem.
    destruct (String.eqb k kid); reflexivity.
Qed.

(** ** The overlay renderer: painting *)

(** X5. Keys that share an id light up together: while the id is in the
    pressed-set, any two keys with that id are painted with the same
    background, whatever their own colours. *)
Theorem paint_key_twins_lit_together
    (self : Overlay.OverlayWindow) (k1 k2 : Key) :
  key_id k1 = key_id k2 →
  key_id k1 ∈ Overlay._pressed self →
  Overlay.bg_color (Overlay.paint_key self k1)
  = Overlay.bg_color (Overlay.paint_key self k2).
Proof.
  intros Hid Hdown. unfold Overlay.paint_key. simpl.
  rewrite <- Hid. rewrite bool_decide_eq_true_2 by exact Hdown.
  destruct (String.prefix "mouse_" (key_id k1)); [reflexivity |].
  unfold Overlay._hex, Overlay.and_None.
  destruct (key_color k1) as [c1 |], (key_color k2) as [c2 |]; simpl;
    try destruct (String.eqb c1 "") eqn:H1; try destruct (String.eqb c2 "") eqn:H2;
    simpl; rewrite ?H1, ?H2; reflexivity.
Qed.

Lemma paint_key_twins_lit_together_witness :
  Overlay.bg_color
    (Overlay.paint_key
       (Overlay.update_key "a" true (Overlay.__init__ [] DEFAULT_THEME))
       key_a)
  = Overlay.bg_color
      (Overlay.paint_key
         (Overlay.update_key "a" true (Overlay.__init__ [] DEFAULT_THEME))
         (mkKey "a" "A2" 5 1 2 1 (Some "#ff0000") None)).
Proof.
  apply paint_key_twins_lit_together.
  - reflexivity.
  - apply (bool_decide_unpack _). vm_compute. exact I.
Defined.

(** X6. Every event the mouse callback emits carries an id that starts with
    "mouse_"; a displayed key with that id is therefore painted with the
    theme's mouse colours: mouse-pressed while the id is down, and, when it
    has no colour of its own, mouse-idle while it is up. *)
Theorem on_click_paints_mouse_colours
    (button_name : string) (pressed : bool) (self : Overlay.OverlayWindow)
    (k : Key) :
  Listener._on_click button_name pressed
  = [("mouse_" ++ button_name, pressed)]
  ∧ (key_id k = "mouse_" ++ button_name →
     Overlay.bg_color
       (Overlay.paint_key (key_events (Listener._on_click button_name true) self) k)
     = mkQColor (get_str (Overlay._theme self) "mouse_pressed" "#1e90ff")
     ∧ (Py.truthy (key_color k) = false →
        Overlay.bg_color
          (Overlay.paint_key
             (key_events (Listener._on_click button_name false) self) k)
        = mkQColor (get_str (Overlay._theme self) "mouse_idle" "#1e3a5f"))).
Proof.
  split; [reflexivity |]. intros Hid.
  assert (String.prefix "mouse_" (key_id k) = true) as Hmouse.
  { rewrite Hid. destruct button_name; reflexivity. }
  unfold Listener._on_click, key_events. simpl fold_left.
  split.
  - destruct (update_key_frame ("mouse_" ++ button_name) true self)
      as (_ & Hth & _).
    unfold Overlay.paint_key. simpl. rewrite Hmouse, Hth.
    rewrite bool_decide_eq_true_2; [reflexivity |].
    rewrite update_key_elem, Hid, String.eqb_refl. reflexivity.
  - intros Hplain.
    destruct (update_key_frame ("mouse_" ++ button_name) false self)
      as (_ & Hth & _).
    unfold Overlay.paint_key. simpl. rewrite Hmouse, Hplain, Hth.
    rewrite bool_decide_eq_false_2; [reflexivity |].
    rewrite update_key_elem, Hid, String.eqb_refl. discriminate.
Qed.

Lemma on_click_paints_mouse_colours_witness :
  Overlay.bg_color
    (Overlay.paint_key
       (key_events (Listener._on_click "left" true)
          (Overlay.__init__ [] DEFAULT_THEME))
       (mkKey "mouse_left" "LMB" 0 7 (3 # 2) (3 # 2) (Some "#1e3a5f") None))
  = mkQColor "#1e90ff".
Proof.
  pose proof (on_click_paints_mouse_colours "left" true
                (Overlay.__init__ [] DEFAULT_THEME)
                (mkKey "mouse_left" "LMB" 0 7 (3 # 2) (3 # 2)
                   (Some "#1e3a5f") None)) as [_ Hpaint].
  destruct (Hpaint ltac:(reflexivity)) as [Hdown _].
  exact Hdown.
Defined.

(** ** The layout editor: consistency of the canvas state *)

Section CanvasFacts.
Import Editor.

Lemma in_store_is_Some (h : gmap loc Key) (l : loc) :
  in_store h l = true ↔ is_Some (h !! l).
Proof.
  unfold in_store. destruct (h !! l); split; intros H; eauto.
  - discriminate.
  - destruct H as [? H]. discriminate.
Qed.

Lemma well_formed_iff (self : EditorCanvas) :
  well_formed self = true
  ↔ (∀ l, l ∈ _keys self → is_Some (heap self !! l))
    ∧ (∀ l, _selected self = Some l → is_Some (heap self !! l))
    ∧ (∀ l, _drag_key self = Some l → is_Some (heap self !! l)).
Proof.
  unfold well_formed. rewrite !andb_true_iff, forallb_forall.
  split.
  - intros [[Hkeys Hsel] Hdrag]. repeat split.
    + intros l Hl. apply in_store_is_Some, Hkeys, list_elem_of_In, Hl.
    + intros l Heq. rewrite Heq in Hsel. apply in_store_is_Some, Hsel.
    + intros l Heq. rewrite Heq in Hdrag. apply in_store_is_Some, Hdrag.
  - intros (Hkeys & Hsel & Hdrag). repeat split.
    + intros l Hl. apply in_store_is_Some, Hkeys, list_elem_of_In, Hl.
    + destruct (_selected self) as [l |]; [| reflexivity].
      apply in_store_is_Some, Hsel. reflexivity.
    + destruct (_drag_key self) as [l |]; [| reflexivity].
      apply in_store_is_Some, Hdrag. reflexivity.
Qed.

Lemma canvas_ok_iff (self : EditorCanvas) :
  canvas_ok self = true
  ↔ well_formed self = true
    ∧ (∀ l, _selected self = Some l → l ∈ _keys self)
    ∧ NoDup (_keys self).
Proof.
  unfold canvas_ok, selection_listed, distinct_objects.
  rewrite !andb_true_iff, bool_decide_eq_true.
  split.
  - intros [[Hwf Hsel] Hnd]. repeat split; [exact Hwf | | exact Hnd].
    intros l Heq. rewrite Heq in Hsel.
    apply bool_decide_eq_true in Hsel. exact Hsel.
  - intros (Hwf & Hsel & Hnd). repeat split; [exact Hwf | | exact Hnd].
    destruct (_selected self) as [l |]; [| reflexivity].
    apply bool_decide_eq_true, Hsel. reflexivity.
Qed.

Lemma is_Some_insert (h : gmap loc Key) (l l' : loc) (k : Key) :
  is_Some (h !! l) → is_Some (<[l' := k]> h !! l).
Proof.
  intros Hl. destruct (decide (l' = l)) as [-> | Hne].
  - rewrite lookup_insert_eq. eauto.
  - rewrite lookup_insert_ne by exact Hne. exact Hl.
Qed.



End CanvasFacts.

Section LoadFacts.
Import Editor.


End LoadFacts.


Section ReachFacts.
Import Editor.


Lemma canvas_ok_elim (s : EditorCanvas) :
  canvas_ok s = true →
  (∀ l, l ∈ _keys s → is_Some (heap s !! l))
  ∧ (∀ l, _selected s = Some l → l ∈ _keys s)
  ∧ (∀ l, _drag_key s = Some l → is_Some (heap s !! l))
  ∧ NoDup (_keys s).
Proof.
  intros Hok. apply canvas_ok_iff in Hok as (Hwf & Hsel & Hnd).
  apply well_formed_iff in Hwf as (Hkeys & _ & Hdrag). auto.
Qed.



(** The hit test on a list of stored keys: the first key of the list that
    contains the point, or none. *)
Lemma first_hit_spec (self : EditorCanvas) (pos : Q * Q) (ls : list loc) :
  (∀ l, l ∈ ls → is_Some (heap self !! l)) →
  (∃ pre l post k,
      ls = (pre ++ l :: post)%list
      ∧ first_hit self pos ls = Py.Ok (Some l)
      ∧ heap self !! l = Some k
      ∧ contains (_key_rect self k) pos = true
      ∧ ∀ l' k', l' ∈ pre → heap self !! l' = Some k' →
                 contains (_key_rect self k') pos = false)
  ∨ (first_hit self pos ls = Py.Ok None
     ∧ ∀ l' k', l' ∈ ls → heap self !! l' = Some k' →
                contains (_key_rect self k') pos = false).
Proof.
  induction ls as [| l ls IH]; intros Hall.
  - right. split; [reflexivity |].
    intros l' k' Hl'. apply elem_of_nil in Hl'. contradiction.
  - destruct (Hall l) as [k Hk]; [left |].
    simpl. unfold deref. rewrite Hk. simpl.
    destruct (contains (_key_rect self k) pos) eqn:Hc.
    + left. exists [], l, ls, k. repeat split; auto.
      intros l' k' Hl'. apply elem_of_nil in Hl'. contradiction.
    + destruct IH as [(pre & l1 & post & k1 & -> & Hrun & Hk1 & Hc1 & Hpre)
                     | [Hrun Hnone]].
      { intros l' Hl'. apply Hall. right. exact Hl'. }
      * left. exists (l :: pre), l1, post, k1. repeat split; auto.
        intros l' k' Hl' Hk'. apply elem_of_cons in Hl' as [-> | Hl'].
        -- assert (k' = k) as -> by congruence. exact Hc.
        -- eauto.
      * right. split; [exact Hrun |].
        intros l' k' Hl' Hk'. apply elem_of_cons in Hl' as [-> | Hl'].
        -- assert (k' = k) as -> by congruence. exact Hc.
        -- eauto.
Qed.

End ReachFacts.

Section StepFacts.
Import Editor.





Lemma elem_of_rev (l : loc) (ls : list loc) : l ∈ rev ls ↔ l ∈ ls.
Proof. rewrite !list_elem_of_In. symmetry. apply in_rev. Qed.




End StepFacts.


(** ** The layout editor: mouse interaction *)

Section MouseFacts.
Import Editor.



End MouseFacts.

(** X9. The hit test of a left press takes the topmost key under the
    pointer: the key it selects and makes the drag target contains the point,
    and no key listed after it (drawn above it) does; when no key contains
    the point the selection is cleared.  A press of another button changes
    nothing. *)
Theorem mousePressEvent_hit_test
    (self : Editor.EditorCanvas) (pos : Q * Q) :
  canvas_ok self = true →
  Editor.mousePressEvent false pos self = Py.Ok self
  ∧ ∃ self',
      Editor.mousePressEvent true pos self = Py.Ok self'
      ∧ Editor._keys self' = Editor._keys self
      ∧ Editor.heap self' = Editor.heap self
      ∧ ((∃ below l above k,
            Editor._keys self = (below ++ l :: above)%list
            ∧ Editor.heap self !! l = Some k
            ∧ Editor.contains (Editor._key_rect self k) pos = true
            ∧ (∀ l' k', l' ∈ above → Editor.heap self !! l' = Some k' →
                 Editor.contains (Editor._key_rect self k') pos = false)
            ∧ Editor._selected self' = Some l
            ∧ Editor._drag_key self' = Some l)
         ∨ ((∀ l' k', l' ∈ Editor._keys self →
               Editor.heap self !! l' = Some k' →
               Editor.contains (Editor._key_rect self k') pos = false)
            ∧ Editor._selected self' = None
            ∧ Editor._drag_key self' = Editor._drag_key self)).
Proof.
  intros Hok. split; [reflexivity |].
  apply canvas_ok_elim in Hok as (Hall & _ & _ & _).
  unfold Editor.mousePressEvent, Editor._key_at.
  destruct (first_hit_spec self pos (rev (Editor._keys self)))
    as [(pre & l & post & k & Hsplit & -> & Hk & Hc & Hpre) | [-> Hnone]].
  - intros l Hl. apply Hall, elem_of_rev, Hl.
  - simpl. unfold Editor.deref. rewrite Hk. simpl.
    eexists. split; [reflexivity |]. simpl.
    split; [reflexivity |]. split; [reflexivity |].
    left. exists (rev post), l, (rev pre), k.
    repeat split; auto.
    + rewrite <- (rev_involutive (Editor._keys self)), Hsplit.
      rewrite rev_app_distr. simpl. rewrite <- app_assoc. reflexivity.
    + intros l' k' Hl'. apply Hpre, elem_of_rev, Hl'.
  - simpl. eexists. split; [reflexivity |]. simpl.
    split; [reflexivity |]. split; [reflexivity |].
    right. repeat split; auto.
    intros l' k' Hl'. apply Hnone, elem_of_rev, Hl'.
Qed.

Lemma mousePressEvent_hit_test_witness :
  Editor.mousePressEvent false (154 # 1, 10 # 1)%Q pair_canvas
  = Py.Ok pair_canvas.
Proof.
  apply (mousePressEvent_hit_test pair_canvas (154 # 1, 10 # 1)%Q).
  vm_compute. reflexivity.
Defined.





(** ** The layout editor: composing operations *)

Section ComposeFacts.
Import Editor.

Lemma other_id_insert_ne (h : gmap loc Key) (kid : string) (l l' : loc)
    (k : Key) :
  l ≠ l' → other_id (<[l := k]> h) kid l' = other_id h kid l'.
Proof.
  intros Hne. unfold other_id. rewrite lookup_insert_ne by exact Hne.
  reflexivity.
Qed.

Lemma filter_ext_in (f g : loc → bool) (ls : list loc) :
  (∀ l, l ∈ ls → f l = g l) → List.filter f ls = List.filter g ls.
Proof.
  induction ls as [| l ls IH]; intros Hext; simpl; [reflexivity |].
  rewrite (Hext l) by left. rewrite IH; [reflexivity |].
  intros l' Hl'. apply Hext. right. exact Hl'.
Qed.

Lemma deref_all_app (h : gmap loc Key) (l1 l2 : list loc) (k1 k2 : list Key) :
  deref_all h l1 = Py.Ok k1 → deref_all h l2 = Py.Ok k2 →
  deref_all h (l1 ++ l2) = Py.Ok (k1 ++ k2)%list.
Proof.
  revert k1. induction l1 as [| l l1 IH]; intros k1 H1 H2; simpl in *.
  - injection H1 as <-. exact H2.
  - unfold deref in *. destruct (h !! l) as [k |]; [| discriminate].
    simpl in *. destruct (deref_all h l1) as [ks |]; [| discriminate].
    simpl in *. injection H1 as <-. rewrite (IH ks eq_refl H2). reflexivity.
Qed.

Lemma deref_all_app_inv (h : gmap loc Key) (l1 l2 : list loc)
    (ks : list Key) :
  deref_all h (l1 ++ l2) = Py.Ok ks →
  ∃ k1 k2, ks = (k1 ++ k2)%list ∧ deref_all h l1 = Py.Ok k1
           ∧ deref_all h l2 = Py.Ok k2.
Proof.
  revert ks. induction l1 as [| l l1 IH]; intros ks Hall; simpl in *.
  - exists [], ks. auto.
  - unfold deref in *. destruct (h !! l) as [k |]; [| discriminate].
    simpl in *.
    destruct (deref_all h (l1 ++ l2)) as [ks' |] eqn:Hrest; [| discriminate].
    simpl in Hall. injection Hall as <-.
    destruct (IH ks' eq_refl) as (k1 & k2 & -> & -> & ->).
    exists (k :: k1), k2. auto.
Qed.

Lemma deref_all_insert_other (h : gmap loc Key) (l : loc) (k : Key)
    (ls : list loc) :
  l ∉ ls → deref_all (<[l := k]> h) ls = deref_all h ls.
Proof.
  induction ls as [| l' ls IH]; intros Hnot; simpl; [reflexivity |].
  apply not_elem_of_cons in Hnot as [Hne Hnot].
  unfold deref. rewrite lookup_insert_ne by exact Hne.
  rewrite IH by exact Hnot. reflexivity.
Qed.

End ComposeFacts.

(** X12. Deleting right after [add_key] removes the new key and, with it,
    every listed key that carries the same id: the list is left as the old
    list without that id.  When no listed key has the id the new key got,
    the old list is restored exactly. *)
Theorem add_key_then_delete_selected (self : Editor.EditorCanvas) (u : N) :
  canvas_ok self = true →
  ∃ self',
    Editor.delete_selected (Editor.add_key u self) = Py.Ok self'
    ∧ Editor._keys self'
      = List.filter (other_id (Editor.heap self) (Editor.new_key_id u))
          (Editor._keys self)
    ∧ Editor._selected self' = None
    ∧ (Editor.new_key_id u ∉ ids_of (Editor.heap self) (Editor._keys self) →
       Editor._keys self' = Editor._keys self).
Proof.
  intros Hok.
  apply canvas_ok_elim in Hok as (Hall & _ & _ & _).
  unfold Editor.add_key. cbv zeta.
  generalize (Editor.new_key_id u). intros kid.
  set (l := fresh (dom (Editor.heap self))).
  assert (Hfresh : Editor.heap self !! l = None)
    by (apply not_elem_of_dom, is_fresh).
  assert (Hnew : ∀ l', l' ∈ Editor._keys self → l ≠ l').
  { intros l' Hl' <-. destruct (Hall l Hl') as [k Hk]. congruence. }
  set (k := mkKey kid "New" 0 9 1 1 None None).
  unfold Editor.delete_selected. simpl.
  unfold Editor.deref. rewrite lookup_insert_eq. simpl.
  rewrite without_id_filter.
  2:{ intros l' Hl'. apply elem_of_app in Hl' as [Hl' | Hl'].
      - apply is_Some_insert, Hall, Hl'.
      - apply list_elem_of_singleton in Hl' as ->.
        rewrite lookup_insert_eq. eauto. }
  simpl. eexists. split; [reflexivity |]. simpl.
  assert (Hfilter :
    List.filter (other_id (<[l := k]> (Editor.heap self)) kid)
      (Editor._keys self ++ [l])
    = List.filter (other_id (Editor.heap self) kid) (Editor._keys self)).
  { rewrite List.filter_app.
    replace (List.filter (other_id (<[l := k]> (Editor.heap self)) kid) [l])
      with (@nil Editor.loc).
    2:{ simpl. unfold other_id. rewrite lookup_insert_eq. simpl.
        rewrite String.eqb_refl. reflexivity. }
    rewrite app_nil_r.
    apply filter_ext_in. intros l' Hl'.
    apply other_id_insert_ne, Hnew, Hl'. }
  rewrite Hfilter.
  split; [reflexivity |]. split; [reflexivity |].
  intros Habsent. apply filter_absent_id; assumption.
Qed.

Lemma add_key_then_delete_selected_witness :
  ∃ self',
    Editor.delete_selected (Editor.add_key uuid_2 pair_canvas) = Py.Ok self'
    ∧ length (Editor._keys self') = 1%nat.
Proof.
  destruct (add_key_then_delete_selected pair_canvas uuid_2)
    as (self' & Hrun & Hkeys & _).
  - vm_compute. reflexivity.
  - exists self'. split; [exact Hrun |]. rewrite Hkeys.
    vm_compute. reflexivity.
Defined.

(** X13. An edit through the selection is an edit of the layout: after
    [update_selected], [get_keys] gives the old keys with the one at the
    selected key's place replaced by the patched key, and every other entry
    as it was. *)
Theorem update_selected_patches_one_entry
    (self : Editor.EditorCanvas) (updates : list Editor.FieldUpdate)
    (below above : list Editor.loc) (sel : Editor.loc) :
  canvas_ok self = true →
  Editor._selected self = Some sel →
  Editor._keys self = (below ++ sel :: above)%list →
  ∃ kb k ka self',
    Editor.get_keys self = Py.Ok (kb ++ k :: ka)%list
    ∧ length kb = length below
    ∧ Editor.update_selected updates self = Py.Ok self'
    ∧ Editor.get_keys self'
      = Py.Ok (kb ++ fold_left Editor.setitem updates k :: ka)%list
    ∧ Editor._selected self' = Some sel.
Proof.
  intros Hok Hsel Hkeys.
  apply canvas_ok_elim in Hok as (Hall & _ & _ & Hnd).
  rewrite Hkeys in Hnd. apply NoDup_app in Hnd as (_ & Hdisj & Hnd).
  apply NoDup_cons in Hnd as [Hnot_above _].
  assert (Hnot_below : sel ∉ below).
  { intros Hin. apply (Hdisj sel Hin). left. }
  destruct (deref_all_ok _ _ Hall) as [ks Hks].
  rewrite Hkeys in Hks.
  destruct (deref_all_app_inv _ _ _ _ Hks) as (kb & krest & -> & Hb & Hrest).
  simpl in Hrest. unfold Editor.deref in Hrest.
  destruct (Editor.heap self !! sel) as [k |] eqn:Hk; [| discriminate].
  simpl in Hrest.
  destruct (Editor.deref_all (Editor.heap self) above) as [ka |] eqn:Ha;
    [| discriminate].
  simpl in Hrest. injection Hrest as <-.
  exists kb, k, ka.
  unfold Editor.update_selected, Editor.get_keys.
  rewrite Hsel. unfold Editor.deref. rewrite Hk. simpl.
  eexists. split; [rewrite Hkeys; exact Hks |].
  split.
  { clear -Hb. revert kb Hb. induction below as [| l below IH]; intros kb Hb;
      simpl in Hb.
    - injection Hb as <-. reflexivity.
    - unfold Editor.deref in Hb.
      destruct (Editor.heap self !! l); [| discriminate]. simpl in Hb.
      destruct (Editor.deref_all (Editor.heap self) below) as [kb' |] eqn:Hb';
        [| discriminate].
      simpl in Hb. injection Hb as <-. simpl. f_equal. apply IH. reflexivity. }
  split; [reflexivity |]. simpl. split; [| exact Hsel].
  rewrite Hkeys. apply deref_all_app.
  - rewrite deref_all_insert_other by exact Hnot_below. exact Hb.
  - simpl. unfold Editor.deref. rewrite lookup_insert_eq. simpl.
    rewrite deref_all_insert_other by exact Hnot_above.
    rewrite Ha. reflexivity.
Qed.

Lemma update_selected_patches_one_entry_witness :
  ∃ kb k ka self',
    Editor.get_keys pair_canvas = Py.Ok (kb ++ k :: ka)%list
    ∧ length kb = 1%nat
    ∧ Editor.update_selected [Editor.upd_label "Esc"] pair_canvas
      = Py.Ok self'
    ∧ Editor.get_keys self'
      = Py.Ok (kb ++ Editor.setitem k (Editor.upd_label "Esc") :: ka)%list.
Proof.
  destruct (update_selected_patches_one_entry pair_canvas
              [Editor.upd_label "Esc"] [0%nat] [] 1%nat)
    as (kb & k & ka & self' & Hget & Hlen & Hrun & Hget' & _).
  - vm_compute. reflexivity.
  - vm_compute. reflexivity.
  - vm_compute. reflexivity.
  - exists kb, k, ka, self'. auto.
Defined.

(** ** The layout editor: canvas size *)

Section ResizeFacts.
Import Editor.





End ResizeFacts.



(** ** The layout editor: painting *)

Section PaintFacts.
Import Editor.

Lemma paint_keys_lookup (self : EditorCanvas) (ls : list loc) :
  (∀ l, l ∈ ls → is_Some (heap self !! l)) →
  ∃ ps,
    paint_keys self ls = Py.Ok ps
    ∧ length ps = length ls
    ∧ ∀ i l p, ls !! i = Some l → ps !! i = Some p →
        ∃ k, heap self !! l = Some k ∧ p = paint_key self l k.
Proof.
  induction ls as [| l0 ls IH]; intros Hall; simpl.
  - exists []. repeat split; auto. intros i l p Hl. discriminate.
  - destruct (Hall l0) as [k0 Hk0]; [left |].
    destruct IH as (ps & Hrun & Hlen & Hps).
    { intros l Hl. apply Hall. right. exact Hl. }
    unfold deref. rewrite Hk0. simpl. rewrite Hrun. simpl.
    eexists. split; [reflexivity |]. split; [simpl; lia |].
    intros [| i] l p Hl Hp; simpl in *.
    + injection Hl as <-. injection Hp as <-. eauto.
    + eauto.
Qed.

Lemma paint_key_selected (self : EditorCanvas) (l : loc) (k : Key) :
  ol_w (paint_key self l k) = 2%Z ↔ _selected self = Some l.
Proof.
  unfold paint_key. case_bool_decide as Hsel; simpl.
  - split; auto.
  - split; [discriminate | congruence].
Qed.

Lemma paint_key_bg (self : EditorCanvas) (l : loc) (k : Key) :
  bg (paint_key self l k)
  = if Py.truthy (key_color k) then _hex (key_color k) "#2a2a3a"
    else _hex (Some (get_str (_theme self) "key_idle" "#2a2a3a")) "#2a2a3a".
Proof. unfold paint_key. case_bool_decide; reflexivity. Qed.

End PaintFacts.

(** X15. The editor marks the selection by object, not by id: painting
    draws one entry per listed key, the entry of a key has the selection
    outline (width 2) exactly when that key object is the selected one, and
    so at most one entry has it, even among keys that share an id. *)
Theorem editor_paint_marks_selected_object (self : Editor.EditorCanvas) :
  canvas_ok self = true →
  ∃ ps,
    Editor.paintEvent self = Py.Ok ps
    ∧ length ps = length (Editor._keys self)
    ∧ (∀ i l p, Editor._keys self !! i = Some l → ps !! i = Some p →
         Editor.ol_w p = 2%Z ↔ Editor._selected self = Some l)
    ∧ (∀ i j p q, ps !! i = Some p → ps !! j = Some q →
         Editor.ol_w p = 2%Z → Editor.ol_w q = 2%Z → i = j).
Proof.
  intros Hok. apply canvas_ok_elim in Hok as (Hall & _ & _ & Hnd).
  destruct (paint_keys_lookup self (Editor._keys self) Hall)
    as (ps & Hrun & Hlen & Hps).
  exists ps. split; [exact Hrun |]. split; [exact Hlen |].
  assert (Hmark : ∀ i l p, Editor._keys self !! i = Some l →
            ps !! i = Some p →
            Editor.ol_w p = 2%Z ↔ Editor._selected self = Some l).
  { intros i l p Hl Hp. destruct (Hps i l p Hl Hp) as (k & _ & ->).
    apply paint_key_selected. }
  split; [exact Hmark |].
  intros i j p q Hp Hq Hwp Hwq.
  assert (Hi : is_Some (Editor._keys self !! i)).
  { apply lookup_lt_is_Some. rewrite <- Hlen. eapply lookup_lt_Some, Hp. }
  assert (Hj : is_Some (Editor._keys self !! j)).
  { apply lookup_lt_is_Some. rewrite <- Hlen. eapply lookup_lt_Some, Hq. }
  destruct Hi as [li Hli], Hj as [lj Hlj].
  apply (Hmark i li p Hli Hp) in Hwp. apply (Hmark j lj q Hlj Hq) in Hwq.
  assert (li = lj) as -> by congruence.
  eapply NoDup_lookup; eauto.
Qed.

Lemma editor_paint_marks_selected_object_witness :
  ∃ ps,
    Editor.paintEvent pair_canvas = Py.Ok ps
    ∧ length ps = length (Editor._keys pair_canvas).
Proof.
  destruct (editor_paint_marks_selected_object pair_canvas)
    as (ps & Hrun & Hlen & _).
  - vm_compute. reflexivity.
  - exists ps. auto.
Defined.

(** X16. The editor previews the idle look of the overlay, except for mouse
    keys: under the same theme, with a non-empty theme idle colour, a key
    that is up has the same background in the editor as in the overlay when
    it has a colour of its own or its id does not start with "mouse_"; a
    mouse key without a colour of its own is drawn with the key-idle colour
    in the editor and with the mouse-idle colour in the overlay. *)
Theorem editor_preview_background
    (e : Editor.EditorCanvas) (ov : Overlay.OverlayWindow)
    (l : Editor.loc) (k : Key) :
  Editor._theme e = Overlay._theme ov →
  key_id k ∉ Overlay._pressed ov →
  get_str (Overlay._theme ov) "key_idle" "#2a2a3a" ≠ "" →
  (Py.truthy (key_color k) = true ∨ String.prefix "mouse_" (key_id k) = false →
   Editor.bg (Editor.paint_key e l k)
   = Overlay.bg_color (Overlay.paint_key ov k))
  ∧ (Py.truthy (key_color k) = false →
     String.prefix "mouse_" (key_id k) = true →
     Editor.bg (Editor.paint_key e l k)
     = mkQColor (get_str (Overlay._theme ov) "key_idle" "#2a2a3a")
     ∧ Overlay.bg_color (Overlay.paint_key ov k)
       = mkQColor (get_str (Overlay._theme ov) "mouse_idle" "#1e3a5f")).
Proof.
  intros Htheme Hup Hidle.
  assert (Hne : String.eqb (get_str (Overlay._theme ov) "key_idle" "#2a2a3a")
                  "" = false).
  { apply String.eqb_neq. exact Hidle. }
  rewrite paint_key_bg, Htheme.
  unfold Overlay.paint_key. simpl.
  rewrite bool_decide_eq_false_2 by exact Hup.
  unfold Editor._hex, Overlay._hex. simpl. rewrite Hne. simpl.
  split.
  - intros [Hc | Hm].
    + rewrite Hc. destruct (key_color k) as [c |]; [| discriminate].
      simpl in *. rewrite ?Hc. reflexivity.
    + rewrite Hm. destruct (key_color k) as [c |]; simpl; [| reflexivity].
      destruct (negb (String.eqb c "")); reflexivity.
  - intros Hc Hm. rewrite Hc, Hm. auto.
Qed.

Lemma editor_preview_background_witness :
  Editor.bg (Editor.paint_key fresh_canvas 0%nat key_a)
  = Overlay.bg_color
      (Overlay.paint_key (Overlay.__init__ [key_a] DEFAULT_THEME) key_a).
Proof.
  pose proof (editor_preview_background fresh_canvas
                (Overlay.__init__ [key_a] DEFAULT_THEME) 0%nat key_a)
    as Hthm.
  destruct Hthm as [Hsame _].
  - reflexivity.
  - vm_compute. set_solver.
  - vm_compute. discriminate.
  - apply Hsame. right. reflexivity.
Defined.

(** ** The input listener: properties *)

(** X17. [start()] takes effect once in the life of a listener object: a
    second call changes nothing, and neither does a call after [stop()],
    because [stop()] leaves the started flag set.  A stopped listener is
    never attached again. *)
Theorem listener_starts_once
    (kb ms kb' ms' : Listener.Attach) (self : Listener.InputListener) :
  Listener.start kb' ms' (Listener.start kb ms self)
  = Listener.start kb ms self
  ∧ Listener.start kb' ms' (Listener.stop (Listener.start kb ms self))
    = Listener.stop (Listener.start kb ms self)
  ∧ Listener._started (Listener.stop (Listener.start kb ms self)) = true.
Proof.
  unfold Listener.start, Listener.stop.
  destruct (Listener._started self) eqn:Hstarted; simpl;
    rewrite ?Hstarted; auto.
Qed.

(** X18. On a new listener object, the keyboard and the mouse listener
    attach independently: each is held when its constructor returned,
    whatever happened to the other, and the listener counts as started even
    when both failed.  [stop()] then stops exactly the listener objects that
    were constructed, including one whose [start()] raised. *)
Theorem listener_attach_independent (kb ms : Listener.Attach) :
  let s := Listener.start kb ms Listener.__init__ in
  (is_Some (Listener._kb s) ↔ kb ≠ Listener.raises_in_constructor)
  ∧ (is_Some (Listener._ms s) ↔ ms ≠ Listener.raises_in_constructor)
  ∧ (Listener._kb s = Some Listener.running ↔ kb = Listener.attaches)
  ∧ (Listener._ms s = Some Listener.running ↔ ms = Listener.attaches)
  ∧ Listener._started s = true
  ∧ (Listener.kb_stop ∈ Listener.calls (Listener.stop s)
     ↔ kb ≠ Listener.raises_in_constructor)
  ∧ (Listener.ms_stop ∈ Listener.calls (Listener.stop s)
     ↔ ms ≠ Listener.raises_in_constructor)
  ∧ Listener.calls (Listener.stop Listener.__init__) = [].
Proof.
  cbv zeta.
  destruct kb, ms; simpl;
    repeat split;
    try (intros [? ?]; congruence);
    try congruence; eauto;
    try (intros; set_solver).
Qed.

(** X19. The id a keyboard event is reported under is lower-case: whenever
    [str.lower] is idempotent, [_normalize] returns a fixed point of it.  A
    non-empty [char] takes precedence over the key's name, and a key whose
    id comes out empty is not reported at all. *)
Theorem normalize_lower_case
    (lower : string → string) (key : Listener.KeyObj) :
  (∀ s, lower (lower s) = lower s) →
  lower (Listener._normalize lower key) = Listener._normalize lower key
  ∧ (∀ c, Listener.char key = Listener.Char c → c ≠ "" →
       Listener._normalize lower key = lower c)
  ∧ (∀ ev, ev ∈ (Listener._on_kb_press lower key
                 ++ Listener._on_kb_release lower key)%list →
       ev.1 = Listener._normalize lower key ∧ ev.1 ≠ "")
  ∧ (Listener._normalize lower key = "" →
     Listener._on_kb_press lower key = []
     ∧ Listener._on_kb_release lower key = []).
Proof.
  intros Hidem.
  split; [| split; [| split]].
  - unfold Listener._normalize.
    destruct (Listener.char key) as [| | c]; simpl;
      try destruct (negb (String.eqb c "")); simpl;
      destruct (Listener.name key) as [n |]; simpl;
      try destruct (negb (String.eqb n "")); simpl; apply Hidem.
  - intros c Hc Hne. unfold Listener._normalize. rewrite Hc. simpl.
    apply String.eqb_neq in Hne. rewrite Hne. reflexivity.
  - intros ev Hev. unfold Listener._on_kb_press, Listener._on_kb_release in Hev.
    simpl in Hev.
    destruct (String.eqb_spec (Listener._normalize lower key) "") as [He | He];
      simpl in Hev.
    + apply elem_of_nil in Hev. contradiction.
    + apply elem_of_cons in Hev as [-> | Hev]; [auto |].
      apply list_elem_of_singleton in Hev as ->. auto.
  - intros Hempty. unfold Listener._on_kb_press, Listener._on_kb_release.
    rewrite Hempty. auto.
Qed.

Lemma normalize_lower_case_witness :
  Listener._normalize (fun s => s)
    (Listener.mkKeyObj (Listener.Char "a") None "'a'") = "a".
Proof.
  pose proof (normalize_lower_case (fun s => s)
                (Listener.mkKeyObj (Listener.Char "a") None "'a'")) as Hthm.
  destruct Hthm as (_ & Hchar & _).
  - reflexivity.
  - apply (Hchar "a"); [reflexivity | discriminate].
Defined.

(** ** Settings and theme: properties *)

Section ThemeFacts.
Import Config.





End ThemeFacts.




Section ResetFacts.
Import Main.

Lemma theme_changes_shared
    (changes : list (string * Config.ThemeValue * bool)) (s : MainWindow) :
  _theme s = Config.DEFAULT_THEME_object →
  _theme (theme_changes changes s) = Config.DEFAULT_THEME_object.
Proof.
  revert s. induction changes as [| c changes IH]; intros s Hs;
    [exact Hs |].
  apply IH. unfold _set_theme. rewrite Hs. reflexivity.
Qed.

Lemma theme_changes_own
    (changes : list (string * Config.ThemeValue * bool)) (s : MainWindow)
    (t : Theme) :
  _theme s = Config.own_dict t →
  default_theme (theme_changes changes s) = default_theme s
  ∧ ∃ t', _theme (theme_changes changes s) = Config.own_dict t'.
Proof.
  revert s t. induction changes as [| c changes IH]; intros s t Hs; [eauto |].
  change (theme_changes (c :: changes) s)
    with (theme_changes changes (_set_theme c.1.1 c.1.2 c.2 s)).
  destruct (IH (_set_theme c.1.1 c.1.2 c.2 s)
              (Config.setitem t c.1.1 c.1.2)) as [Hdef Hown].
  - unfold _set_theme. rewrite Hs. reflexivity.
  - split; [| exact Hown]. rewrite Hdef.
    unfold _set_theme. rewrite Hs. reflexivity.
Qed.

End ResetFacts.

(** X22. Resetting the theme restores the built-in defaults only when the
    settings were loaded from a file.  On a run without a readable settings
    file the window's theme is the [DEFAULT_THEME] object itself: theme
    changes are written into the defaults, and a reset afterwards leaves the
    theme as the changes made it.  With a settings file the defaults are
    never written to, and a reset gives them back. *)
Theorem reset_theme_and_shared_defaults
    (changes : list (string * Config.ThemeValue * bool)) (ok : bool)
    (data : Config.SettingsData) :
  let first_run := theme_changes changes (Main.__init__ Config.missing) in
  let unread := theme_changes changes (Main.__init__ Config.unreadable) in
  let loaded := theme_changes changes (Main.__init__ (Config.content data)) in
  (Main.default_theme first_run = Main.current_theme first_run
   ∧ Main.current_theme (Main._reset_theme ok first_run)
     = Main.current_theme first_run)
  ∧ (Main.default_theme unread = Main.current_theme unread
     ∧ Main.current_theme (Main._reset_theme ok unread)
       = Main.current_theme unread)
  ∧ (Main.default_theme loaded = DEFAULT_THEME
     ∧ Main.current_theme (Main._reset_theme ok loaded) = DEFAULT_THEME).
Proof.
  cbv zeta.
  assert (Hshared : ∀ s, Main._theme s = Config.DEFAULT_THEME_object →
            Main.default_theme (theme_changes changes s)
            = Main.current_theme (theme_changes changes s)
            ∧ Main.current_theme
                (Main._reset_theme ok (theme_changes changes s))
              = Main.current_theme (theme_changes changes s)).
  { intros s Hs. pose proof (theme_changes_shared changes s Hs) as Hafter.
    unfold Main.current_theme, Main._reset_theme. simpl.
    rewrite Hafter. auto. }
  split; [apply Hshared; reflexivity |].
  split; [apply Hshared; reflexivity |].
  destruct (theme_changes_own changes (Main.__init__ (Config.content data))
              (Config.dict_update DEFAULT_THEME
                 (default Config.empty_dict (Config.data_theme data))))
    as [Hdef _]; [reflexivity |].
  unfold Main.current_theme, Main._reset_theme. simpl.
  rewrite Hdef. auto.
Qed.

(** On a first run, changing the unit size to 50 and resetting leaves the
    unit size at 50, in the theme and in the defaults. *)
Example reset_keeps_change_on_first_run :
  let s :=
    Main._reset_theme true
      (theme_changes [("key_unit_px", Config.VInt 50, true)]
         (Main.__init__ Config.missing)) in
  get_int (Main.current_theme s) "key_unit_px" 44 = 50%Z
  ∧ get_int (Main.default_theme s) "key_unit_px" 44 = 50%Z.
Proof. vm_compute. auto. Qed.
